(** * mp_pl_comparer: the MP number / party-list comparison script

    A shallow embedding of [scripts/mp_pl_comparer.py] and the properties
    of its two functions, [compare_mp_and_pl] and [export_results].

    Modelling conventions.
    - A Python [str] is a [string]; one [ascii] stands for one character.
    - The value returned by [json.load] is a [json] tree.  A Python [float]
      is the binary64 number it denotes ([spec_float] at precision 53).
    - A file is what opening and [json.load]-ing it gives: either the
      exception raised on the way, or the value read.
    - The two input directories and the output directory, when they exist,
      are directories; the output directory can be written to.
    - [print] appends a [line] to the console; a line keeps the values the
      format string is filled with. *)

From Stdlib Require Import ZArith String Ascii List Bool Lia.
From Stdlib Require Import Floats.SpecFloat.
From stdpp Require Import ssreflect gmap strings list sorting pretty.

Local Open Scope string_scope.
Local Open Scope list_scope.
Local Open Scope Z_scope.
Local Set Warnings "-register-all,-rewrite-rw".

(** ** Python strings *)

Module Str.

(** [s[n:]] for [0 <= n]. *)
Fixpoint drop (n : nat) (s : string) : string :=
  match n, s with
  | O, _ => s
  | S _, EmptyString => EmptyString
  | S n', String _ s' => drop n' s'
  end.

(** [s[:n]] for [0 <= n]. *)
Fixpoint take (n : nat) (s : string) : string :=
  match n, s with
  | O, _ => EmptyString
  | S _, EmptyString => EmptyString
  | S n', String c s' => String c (take n' s')
  end.

(** [s[-n:]]: the last [n] characters, the whole string when it is
    shorter. *)
Definition last (n : nat) (s : string) : string :=
  drop (String.length s - n) s.

(** [s.startswith(p)]. *)
Definition startswith (p s : string) : bool := String.prefix p s.

(** [s.endswith(p)]. *)
Definition endswith (p s : string) : bool :=
  String.eqb (last (String.length p) s) p.

(** [s.replace(old, new)] for a non-empty [old]: the occurrences of [old]
    are replaced from left to right, without overlap.  [skip] counts the
    characters of an occurrence still to be passed over. *)
Fixpoint replace_from (old new : string) (skip : nat) (s : string) : string :=
  match s with
  | EmptyString => EmptyString
  | String c s' =>
      match skip with
      | S k => replace_from old new k s'
      | O =>
          if String.prefix old s
          then new +:+ replace_from old new (String.length old - 1) s'
          else String c (replace_from old new 0 s')
      end
  end.

Definition replace (old new s : string) : string := replace_from old new 0 s.

(** The characters of [s], as [for c in s] yields them. *)
Fixpoint chars (s : string) : list string :=
  match s with
  | EmptyString => []
  | String c s' => String c EmptyString :: chars s'
  end.

(** [sep.join(l)]. *)
Definition join (sep : string) (l : list string) : string := String.concat sep l.

End Str.

(** ** JSON values, as [json.load] returns them *)

Inductive json :=
| JNull
| JBool (b : bool)
| JInt (n : Z)
| JFloat (f : spec_float)
| JStr (s : string)
| JArr (l : list json)
| JObj (kvs : list (string * json)).

(** The Python type of a value. *)
Inductive pytype := TNone | TBool | TInt | TFloat | TStr | TList | TDict.

Definition type_of (v : json) : pytype :=
  match v with
  | JNull => TNone
  | JBool _ => TBool
  | JInt _ => TInt
  | JFloat _ => TFloat
  | JStr _ => TStr
  | JArr _ => TList
  | JObj _ => TDict
  end.

(** ** Exceptions

    Every exception of the model is an instance of Python's [Exception]. *)
Inductive exn :=
| LoadError (msg : string)
    (* whatever [open] or [json.load] raises (OSError, JSONDecodeError,
       UnicodeDecodeError); the message is the runtime's *)
| AttributeError (t : pytype) (attr : string)
    (* 't' object has no attribute 'attr' *)
| NotSubscriptable (t : pytype)
    (* TypeError: 't' object is not subscriptable *)
| KeyError (k : json)
    (* a dict indexed with a key it does not hold *)
| SliceOfDict
    (* a dict indexed with a slice: TypeError (unhashable slice) or
       KeyError, depending on the Python version *)
| IndexError
    (* a list or a string indexed past its end *)
| NotIterable (t : pytype)
    (* TypeError: 't' object is not iterable *)
| FormatError (t : pytype)
    (* TypeError: unsupported format string passed to t.__format__ *)
| Unhashable (t : pytype).
    (* TypeError: unhashable type: 't' *)

(** A file: what [open] followed by [json.load] gives. *)
Inductive file :=
| Broken (e : exn)
| Holds (v : json).

(** ** Operations on loaded values *)

(** [bool(v)]. *)
Definition truthy (v : json) : bool :=
  match v with
  | JNull => false
  | JBool b => b
  | JInt n => negb (n =? 0)
  | JFloat (S754_zero _) => false
  | JFloat _ => true
  | JStr s => negb (String.eqb s "")
  | JArr l => match l with [] => false | _ => true end
  | JObj kvs => match kvs with [] => false | _ => true end
  end.

(** Lookup in a dict whose keys are strings. *)
Fixpoint assoc (k : string) (kvs : list (string * json)) : option json :=
  match kvs with
  | [] => None
  | (k', v) :: rest => if String.eqb k k' then Some v else assoc k rest
  end.

(** The result of an operation that can raise. *)
Inductive outcome (A : Type) :=
| Return (a : A)
| Raise (e : exn).
Arguments Return {A} a.
Arguments Raise {A} e.

(** [v.get(k, dflt)]: only a dict has the method. *)
Definition py_get (v : json) (k : string) (dflt : json) : outcome json :=
  match v with
  | JObj kvs => Return (default dflt (assoc k kvs))
  | _ => Raise (AttributeError (type_of v) "get")
  end.

(** [v[0]]. *)
Definition py_first (v : json) : outcome json :=
  match v with
  | JArr (x :: _) => Return x
  | JStr (String c _) => Return (JStr (String c EmptyString))
  | JArr [] | JStr EmptyString => Raise IndexError
  | JObj _ => Raise (KeyError (JInt 0))
  | _ => Raise (NotSubscriptable (type_of v))
  end.

(** [v[:n]]. *)
Definition py_slice_to (n : nat) (v : json) : outcome json :=
  match v with
  | JArr l => Return (JArr (take n l))
  | JStr s => Return (JStr (Str.take n s))
  | JObj _ => Raise SliceOfDict
  | _ => Raise (NotSubscriptable (type_of v))
  end.

(** [v[-n:]]. *)
Definition py_slice_last (n : nat) (v : json) : outcome json :=
  match v with
  | JArr l => Return (JArr (drop (length l - n) l))
  | JStr s => Return (JStr (Str.last n s))
  | JObj _ => Raise SliceOfDict
  | _ => Raise (NotSubscriptable (type_of v))
  end.

(** The items [for x in v] runs over. *)
Definition py_iter (v : json) : outcome (list json) :=
  match v with
  | JArr l => Return l
  | JStr s => Return (JStr <$> Str.chars s)
  | JObj kvs => Return (JStr <$> kvs.*1)
  | _ => Raise (NotIterable (type_of v))
  end.

(** [v == s] for a string [s]: a value of another type is never equal to
    a string. *)
Definition eq_str (v : json) (s : string) : bool :=
  match v with
  | JStr t => String.eqb t s
  | _ => false
  end.

(** [v in l] for a list [l] of strings. *)
Definition in_strs (v : json) (l : list string) : bool :=
  existsb (eq_str v) l.

(** [format(v, "<n")] succeeds for strings and numbers; [None], lists and
    dicts have no format specification. *)
Definition formattable (v : json) : bool :=
  match v with
  | JStr _ | JInt _ | JBool _ | JFloat _ => true
  | JNull | JArr _ | JObj _ => false
  end.

(** [sorted(l)] under the order [le]: a stable sort, here by insertion.
    An item goes before the first item it is not greater than, so that items
    the order does not separate keep the order they have in [l]. *)
Fixpoint py_insert {A} (le : A -> A -> bool) (x : A) (l : list A) : list A :=
  match l with
  | [] => [x]
  | y :: l' => if le x y then x :: l else y :: py_insert le x l'
  end.

Definition py_sorted {A} (le : A -> A -> bool) (l : list A) : list A :=
  foldr (py_insert le) [] l.

(** ** Floats

    Binary64 arithmetic, rounding to nearest, ties to even. *)

#[global] Instance spec_float_eq_dec : EqDecision spec_float.
Proof. solve_decision. Defined.

Module Float.

(** The integer a float is equal to, when there is one. *)
Definition int_value (f : spec_float) : option Z :=
  match f with
  | S754_zero _ => Some 0
  | S754_finite s m e =>
      let sign n := if s then - n else n in
      if 0 <=? e then Some (sign (Zpos m * 2 ^ e))
      else if Zpos m mod 2 ^ (- e) =? 0 then Some (sign (Zpos m / 2 ^ (- e)))
      else None
  | S754_infinity _ | S754_nan => None
  end.

(** [float(n)]. *)
Definition of_Z (n : Z) : spec_float := binary_normalize 53 1024 n 0 false.

(** [a / b] for ints [0 <= a] and [0 < b]: the float nearest to the
    quotient. *)
Definition true_div (a b : Z) : spec_float :=
  match a, b with
  | Zpos p, Zpos q => SFdiv 53 1024 (S754_finite false p 0) (S754_finite false q 0)
  | Z0, Zpos _ => S754_zero false
  | _, _ => S754_nan
  end.

Definition mul (x y : spec_float) : spec_float := SFmul 53 1024 x y.

(** [num / den] rounded to the nearest integer, ties to even. *)
Definition round_half_even (num den : Z) : Z :=
  let q := num / den in
  match (2 * (num mod den)) ?= den with
  | Lt => q
  | Gt => q + 1
  | Eq => if Z.even q then q else q + 1
  end.

(** [round(x, 2)]: the exact value of [x] is rounded to a multiple [n] of
    one hundredth, ties to even, and the result is the float nearest to
    [n / 100]. *)
Definition round2 (x : spec_float) : spec_float :=
  match x with
  | S754_finite s m e =>
      let n := if 0 <=? e then Zpos m * 2 ^ e * 100
               else round_half_even (Zpos m * 100) (2 ^ (- e)) in
      match n with
      | Zpos p => SFdiv 53 1024 (S754_finite s p 0) (S754_finite false 100 0)
      | _ => S754_zero s
      end
  | _ => x
  end.

End Float.

(** ** Dict keys

    A dict finds a key by [==] (and hash): [True], [1] and [1.0] are one
    key, a string is equal to itself only, and a list or a dict cannot be
    a key. *)

Inductive pykey :=
| KNone
| KStr (s : string)
| KInt (n : Z)
| KFloat (f : spec_float).

#[global] Instance pykey_eq_dec : EqDecision pykey.
Proof. solve_decision. Defined.

(** The key a value stands for; [None] for an unhashable value. *)
Definition key_of (v : json) : option pykey :=
  match v with
  | JNull => Some KNone
  | JBool b => Some (KInt (if b then 1 else 0))
  | JInt n => Some (KInt n)
  | JFloat f => Some (match Float.int_value f with
                      | Some n => KInt n
                      | None => KFloat f
                      end)
  | JStr s => Some (KStr s)
  | JArr _ | JObj _ => None
  end.

(** ** The file system *)

(** The directory [docs/data] with the two files the script writes. *)
Record out_dir := OutDir {
  results_json : option file;
  history_json : option file
}.

Definition empty_dir : out_dir :=
  {| results_json := None; history_json := None |}.

(** The directories the script reads and writes; [None] for a directory
    that does not exist.  A directory maps the names in it to files. *)
Record world := World {
  data_mp : option (gmap string file);
  data_pl : option (gmap string file);
  docs_data : option out_dir
}.

Definition with_docs_data (w : world) (d : out_dir) : world :=
  {| data_mp := data_mp w; data_pl := data_pl w; docs_data := Some d |}.

(** [os.listdir(dir)]: the names, in no particular order. *)
Definition listdir (dir : gmap string file) : list string :=
  (map_to_list dir).*1.

(** ** The data the run builds *)

(** The [match_info] dict. *)
Record match_info := MatchInfo {
  mi_area : string;
  mi_mp_number : string;
  mi_mp_party : json;
  mi_pl_rank : json;
  mi_pl_party_code : json
}.

(** An element of [all_rows]. *)
Record row := Row {
  row_area : string;
  row_mp_number : string;
  row_mp_party : json;
  row_matched : bool;
  row_status : string
}.

(** What [print] writes, one constructor for each [print] of the script. *)
Inductive line :=
| DirErrorLine
    (* Error: data/mp or data/pl directory not found. *)
| TableHeader
    (* Area | MP Num | MP Party | Status *)
| TableRule
    (* "-" * 50 *)
| RowLine (area_code mp_number : string) (mp_party : json) (status : string)
    (* {area_code:<6} | {mp_number:<6} | {mp_party:<10} | {status} *)
| ErrorLine (area_code : string) (e : exn)
    (* Error processing {area_code}: {e} *)
| SummaryBanner
    (* the three lines around SUMMARY BY PARTY (DESC) *)
| NoMatchesLine
    (* No matches discovered. *)
| SummaryHeader
    (* Party Code | Match Count *)
| SummaryRule
    (* "-" * 40 *)
| PartyLine (party : json) (count : Z)
    (* {party:<20} | {count:<10} *)
| SummaryEnd
    (* "=" * 40 *)
| ExportedLine
    (* Results exported to docs/data/results.json *)
| HistoryLine.
    (* History updated at docs/data/history.json *)

(** The mutable state of the loop of [compare_mp_and_pl]. *)
Record state := State {
  all_matches : list match_info;
  all_rows : list row;
  console : list line
}.

Definition init_state (out : list line) : state :=
  {| all_matches := []; all_rows := []; console := out |}.

Definition print (l : line) (st : state) : state :=
  {| all_matches := all_matches st; all_rows := all_rows st;
     console := console st ++ [l] |}.

Definition append_match (m : match_info) (st : state) : state :=
  {| all_matches := all_matches st ++ [m]; all_rows := all_rows st;
     console := console st |}.

Definition append_row (r : row) (st : state) : state :=
  {| all_matches := all_matches st; all_rows := all_rows st ++ [r];
     console := console st |}.

(** What a call leaves behind: the file system, the console, and the
    exception that ended the call, if one did. *)
Record result := Result {
  final_world : world;
  output : list line;
  uncaught : option exn
}.

(** ** Computations that read and change the state and can raise *)

Definition M (A : Type) : Type := state -> outcome A * state.

#[global] Instance M_ret : MRet M := fun A a st => (Return a, st).

#[global] Instance M_bind : MBind M := fun A B k m st =>
  match m st with
  | (Return a, st') => k a st'
  | (Raise e, st') => (Raise e, st')
  end.

Definition lift {A} (o : outcome A) : M A := fun st => (o, st).

Definition update (f : state -> state) : M unit := fun st => (Return tt, f st).

(** [with open(path) as f: json.load(f)]. *)
Definition load (f : file) : M json :=
  match f with
  | Holds v => mret v
  | Broken e => lift (Raise e)
  end.

(** [str(v)] for a value that is not a string.  It is the runtime's; the
    script puts no constraint on it. *)
Class Runtime := { py_str : json -> string }.

(** [f"{v}"]: a string is rendered as it is, any other value through
    [str]. *)
Definition render `{Runtime} (v : json) : string :=
  match v with
  | JStr s => s
  | _ => py_str v
  end.

(** [f"CANDIDATE-MP-{area_code}"]. *)
Definition expected_prefix (area_code : string) : string :=
  "CANDIDATE-MP-" +:+ area_code.
#[global] Arguments expected_prefix : simpl never.

Section Comparer.

Context `{Runtime}.

(** ** The body of the loop over the MP files *)

(** [winning_candidate[len(prefix):] if
    winning_candidate.startswith(prefix) else None]. *)
Definition extract_mp_number (prefix : string) (winning_candidate : json)
  : outcome (option string) :=
  match winning_candidate with
  | JStr s =>
      Return (if Str.startswith prefix s
              then Some (Str.drop (String.length prefix) s)
              else None)
  | _ => Raise (AttributeError (type_of winning_candidate) "startswith")
  end.

(** [for pl_entry in pl_entries: ...]; [matches] is the list of the same
    name. *)
Fixpoint scan_pl (area_code mp_number : string) (mp_party : json)
    (pl_entries : list json) (matches : list string) : M (list string) :=
  match pl_entries with
  | [] => mret matches
  | pl_entry :: rest =>
      pl_party_code ← lift (py_get pl_entry "partyCode" (JStr ""));
      last_2 ← lift (py_slice_last 2 pl_party_code);
      if in_strs last_2 ["06"; "09"]
      then scan_pl area_code mp_number mp_party rest matches
      else if eq_str last_2 mp_number
      then
        pl_rank ← lift (py_get pl_entry "rank" JNull);
        let match_info :=
          {| mi_area := area_code; mi_mp_number := mp_number;
             mi_mp_party := mp_party; mi_pl_rank := pl_rank;
             mi_pl_party_code := pl_party_code |} in
        let text := "Rank " +:+ render pl_rank
                    +:+ " (Party List " +:+ render last_2 +:+ ")" in
        _ ← update (append_match match_info);
        scan_pl area_code mp_number mp_party rest (matches ++ [text])
      else scan_pl area_code mp_number mp_party rest matches
  end.

Definition status_of (matches : list string) : string :=
  match matches with
  | [] => "No Match"
  | _ => "MATCH: " +:+ Str.join ", " matches
  end.

(** [print(f"{area_code:<6} | {mp_number:<6} | {mp_party:<10} | {status}")] *)
Definition print_row (area_code mp_number : string) (mp_party : json)
    (status : string) : M unit :=
  if formattable mp_party
  then update (print (RowLine area_code mp_number mp_party status))
  else lift (Raise (FormatError (type_of mp_party))).

(** Step 1 of the [try] block, "Get MP winning info": the MP number and
    the MP's party, or [None] where the block runs [continue]. *)
Definition winning_info (area_code : string) (mp_file : file)
  : M (option (string * json)) :=
  mp_data ← load mp_file;
  mp_entries ← lift (py_get mp_data "entries" (JArr []));
  if negb (truthy mp_entries) then mret None else
  top_mp ← lift (py_first mp_entries);
  winning_candidate ← lift (py_get top_mp "candidateCode" (JStr ""));
  mp_party ← lift (py_get top_mp "partyCode" (JStr "Unknown"));
  let prefix := expected_prefix area_code in
  mp_number ← lift (extract_mp_number prefix winning_candidate);
  match mp_number with
  | None | Some EmptyString => mret None
  | Some mp_number => mret (Some (mp_number, mp_party))
  end.

(** Step 2, "Get Top 7 Party List data": the entries the scan runs over. *)
Definition top_7 (pl_file : file) : M (list json) :=
  pl_data ← load pl_file;
  pl_all ← lift (py_get pl_data "entries" (JArr []));
  pl_entries ← lift (py_slice_to 7 pl_all);
  lift (py_iter pl_entries).

(** Step 3, "Output Row". *)
Definition output_row (area_code mp_number : string) (mp_party : json)
    (matches : list string) : M unit :=
  let status := status_of matches in
  _ ← update (append_row
         {| row_area := area_code; row_mp_number := mp_number;
            row_mp_party := mp_party;
            row_matched := bool_decide (0 < length matches)%nat;
            row_status := status |});
  print_row area_code mp_number mp_party status.

(** The [try] block. *)
Definition try_block (area_code : string) (mp_file pl_file : file) : M unit :=
  info ← winning_info area_code mp_file;
  match info with
  | None => mret tt
  | Some (mp_number, mp_party) =>
      pl_entries ← top_7 pl_file;
      matches ← scan_pl area_code mp_number mp_party pl_entries [];
      output_row area_code mp_number mp_party matches
  end.

(** [filename.replace(".json", "")]. *)
Definition area_code_of (filename : string) : string :=
  Str.replace ".json" "" filename.

(** Opening a file of a directory; a name the directory does not hold
    cannot be opened. *)
Definition open_in (dir : gmap string file) (filename : string) : file :=
  default (Broken (LoadError "No such file or directory")) (dir !! filename).

(** One iteration of [for filename in mp_files]. *)
Definition loop_body (mp_dir pl_dir : gmap string file) (st : state)
    (filename : string) : state :=
  let area_code := area_code_of filename in
  match pl_dir !! filename with
  | None => st
  | Some pl_file =>
      match try_block area_code (open_in mp_dir filename) pl_file st with
      | (Return _, st') => st'
      | (Raise e, st') => print (ErrorLine area_code e) st'
      end
  end.

(** ** The summary *)

(** [party_counts[p] = party_counts.get(p, 0) + 1] on the dict seen as
    the list of its items, in insertion order. *)
Fixpoint bump (k : pykey) (p : json) (d : list (json * Z)) : list (json * Z) :=
  match d with
  | [] => [(p, 1)]
  | (q, c) :: rest =>
      if bool_decide (key_of q = Some k)
      then (q, c + 1) :: rest
      else (q, c) :: bump k p rest
  end.

Definition count_party (d : list (json * Z)) (p : json)
  : outcome (list (json * Z)) :=
  match key_of p with
  | Some k => Return (bump k p d)
  | None => Raise (Unhashable (type_of p))
  end.

(** [for m in all_matches: ...], from the dict [d]. *)
Fixpoint count_matches (ms : list match_info) (d : list (json * Z))
  : outcome (list (json * Z)) :=
  match ms with
  | [] => Return d
  | m :: rest =>
      match count_party d (mi_mp_party m) with
      | Return d' => count_matches rest d'
      | Raise e => Raise e
      end
  end.

(** The order [key=lambda item: item[1], reverse=True]: larger counts
    first. *)
Definition by_count_desc (a b : json * Z) : bool := b.2 <=? a.2.

(** [sorted(party_counts.items(), key=lambda item: item[1],
    reverse=True)]. *)
Definition sorted_parties (party_counts : list (json * Z)) : list (json * Z) :=
  py_sorted by_count_desc party_counts.

(** [for party, count in sorted_parties: print(...)]. *)
Fixpoint print_parties (l : list (json * Z)) (out : list line)
  : list line * option exn :=
  match l with
  | [] => (out, None)
  | (party, count) :: rest =>
      if formattable party
      then print_parties rest (out ++ [PartyLine party count])
      else (out, Some (FormatError (type_of party)))
  end.

(** ** [export_results] *)

Definition row_json (r : row) : json :=
  JObj [("area", JStr (row_area r)); ("mp_number", JStr (row_mp_number r));
        ("mp_party", row_mp_party r); ("matched", JBool (row_matched r));
        ("status", JStr (row_status r))].

Definition match_json (m : match_info) : json :=
  JObj [("area", JStr (mi_area m)); ("mp_number", JStr (mi_mp_number m));
        ("mp_party", mi_mp_party m); ("pl_rank", mi_pl_rank m);
        ("pl_party_code", mi_pl_party_code m)].

Definition summary_json (sorted : list (json * Z)) : json :=
  JArr ((fun pc => JObj [("party_code", pc.1); ("match_count", JInt pc.2)])
          <$> sorted).

Definition total_areas (rows : list row) : Z := Z.of_nat (length rows).

(** [sum(1 for r in all_rows if r["matched"])]. *)
Definition matched_areas (rows : list row) : Z :=
  Z.of_nat (length (filter (fun r => row_matched r = true) rows)).

(** [round(matched_areas / total_areas * 100, 2) if total_areas > 0
    else 0]. *)
Definition match_rate (matched total : Z) : json :=
  if 0 <? total
  then JFloat (Float.round2 (Float.mul (Float.true_div matched total)
                                       (Float.of_Z 100)))
  else JInt 0.

Definition snapshot_json (timestamp : string) (rows : list row)
    (sorted : list (json * Z)) : json :=
  JObj [("timestamp", JStr timestamp);
        ("total_areas", JInt (total_areas rows));
        ("matched_areas", JInt (matched_areas rows));
        ("match_rate", match_rate (matched_areas rows) (total_areas rows));
        ("summary_by_party", summary_json sorted)].

Definition results_json_of (timestamp : string) (rows : list row)
    (matches : list match_info) (sorted : list (json * Z)) : json :=
  JObj [("timestamp", JStr timestamp);
        ("total_areas", JInt (total_areas rows));
        ("matched_areas", JInt (matched_areas rows));
        ("match_rate", match_rate (matched_areas rows) (total_areas rows));
        ("summary_by_party", summary_json sorted);
        ("matches", JArr (match_json <$> matches));
        ("details", JArr (row_json <$> rows))].

(** The history read back: the file's value, or the empty list when the
    file is absent or cannot be loaded. *)
Definition read_history (f : option file) : json :=
  match f with
  | Some (Holds v) => v
  | Some (Broken _) | None => JArr []
  end.

(** [history.append(item)]: only a list has the method. *)
Definition py_append (history item : json) : outcome json :=
  match history with
  | JArr l => Return (JArr (l ++ [item]))
  | _ => Raise (AttributeError (type_of history) "append")
  end.

(** [timestamp] is the clock reading [datetime.now(timezone.utc)
    .isoformat()].  [os.makedirs(output_dir, exist_ok=True)] gives an empty
    directory when there is none; the results file is written before the
    history is read. *)
Definition export_results (timestamp : string) (rows : list row)
    (matches : list match_info) (party_counts : list (json * Z))
    (w : world) (out : list line) : result :=
  let dir := default empty_dir (docs_data w) in
  let sorted := sorted_parties party_counts in
  let results := results_json_of timestamp rows matches sorted in
  let dir1 := {| results_json := Some (Holds results);
                 history_json := history_json dir |} in
  let out1 := out ++ [ExportedLine] in
  let history := read_history (history_json dir1) in
  match py_append history (snapshot_json timestamp rows sorted) with
  | Raise e =>
      {| final_world := with_docs_data w dir1; output := out1;
         uncaught := Some e |}
  | Return history' =>
      {| final_world :=
           with_docs_data w {| results_json := results_json dir1;
                               history_json := Some (Holds history') |};
         output := out1 ++ [HistoryLine]; uncaught := None |}
  end.

(** ** [compare_mp_and_pl] *)

(** [sorted([f for f in os.listdir(mp_dir) if f.endswith(".json")])]. *)
Definition mp_files (mp_dir : gmap string file) : list string :=
  py_sorted String.leb
    (filter (fun f => Str.endswith ".json" f = true) (listdir mp_dir)).

(** The state after the loop over the MP files. *)
Definition main_loop (mp_dir pl_dir : gmap string file) : state :=
  foldl (loop_body mp_dir pl_dir) (init_state [TableHeader; TableRule])
        (mp_files mp_dir).

Definition compare_mp_and_pl (export_json : bool) (timestamp : string)
    (w : world) : result :=
  match data_mp w, data_pl w with
  | Some mp_dir, Some pl_dir =>
      let st := main_loop mp_dir pl_dir in
      let out := console st ++ [SummaryBanner] in
      match all_matches st with
      | [] =>
          let out := out ++ [NoMatchesLine; SummaryEnd] in
          if export_json
          then export_results timestamp (all_rows st) (all_matches st) [] w out
          else {| final_world := w; output := out; uncaught := None |}
      | _ =>
          match count_matches (all_matches st) [] with
          | Raise e => {| final_world := w; output := out; uncaught := Some e |}
          | Return party_counts =>
              match print_parties (sorted_parties party_counts)
                      (out ++ [SummaryHeader; SummaryRule]) with
              | (out, Some e) =>
                  {| final_world := w; output := out; uncaught := Some e |}
              | (out, None) =>
                  let out := out ++ [SummaryEnd] in
                  if export_json
                  then export_results timestamp (all_rows st) (all_matches st)
                         party_counts w out
                  else {| final_world := w; output := out; uncaught := None |}
              end
          end
      end
  | _, _ => {| final_world := w; output := [DirErrorLine]; uncaught := None |}
  end.

End Comparer.

(** ** A runtime and files for the examples *)

(** [str] on [None], booleans and integers; the examples render no other
    value. *)
Definition str_basic (v : json) : string :=
  match v with
  | JNull => "None"
  | JBool true => "True"
  | JBool false => "False"
  | JInt n => pretty n
  | JStr s => s
  | JFloat _ => "float"
  | JArr _ => "list"
  | JObj _ => "dict"
  end.

Definition basic_runtime : Runtime := {| py_str := str_basic |}.

(** An MP file with one entry. *)
Definition mp_file_of (candidate_code party_code : string) : file :=
  Holds (JObj [("entries",
                JArr [JObj [("candidateCode", JStr candidate_code);
                            ("partyCode", JStr party_code)]])]).

Definition pl_entry_of (party_code : string) (rank : Z) : json :=
  JObj [("partyCode", JStr party_code); ("rank", JInt rank)].

(** A PL file with the given entries. *)
Definition pl_file_of (entries : list json) : file :=
  Holds (JObj [("entries", JArr entries)]).

(** ** What a computation adds to the state

    The loop only ever appends to [all_matches], [all_rows] and the console.
    [extend st d] is [st] with the three lists of [d] appended; a
    computation is [framed] when, from any state, it has the outcome it has
    from the empty state and extends the state by what it leaves there. *)

Definition no_change : state :=
  {| all_matches := []; all_rows := []; console := [] |}.

Definition extend (st d : state) : state :=
  {| all_matches := all_matches st ++ all_matches d;
     all_rows := all_rows st ++ all_rows d;
     console := console st ++ console d |}.

Definition framed {A} (m : M A) : Prop :=
  forall st, m st = ((m no_change).1, extend st (m no_change).2).

(** What one iteration of the loop adds for the file [filename]. *)
Definition area_delta `{Runtime} (mp_dir pl_dir : gmap string file)
    (filename : string) : state :=
  loop_body mp_dir pl_dir no_change filename.

(** ** Steps that leave the state alone, and the outcome of steps 1 and 2 *)

Definition pure {A} (m : M A) : Prop :=
  forall st, m st = ((m no_change).1, st).

(** The outcome of step 1 and of step 2 of the [try] block. *)
Definition info_of (area_code : string) (mp_file : file)
  : outcome (option (string * json)) :=
  (winning_info area_code mp_file no_change).1.

Definition entries_of (pl_file : file) : outcome (list json) :=
  (top_7 pl_file no_change).1.

(** ** What the scan records *)

(** The record and the text the scan adds for a matching entry. *)
Definition match_of (area_code mp_number : string) (mp_party : json)
    (kvs : list (string * json)) (pl_party_code : json) : match_info :=
  {| mi_area := area_code; mi_mp_number := mp_number;
     mi_mp_party := mp_party; mi_pl_rank := default JNull (assoc "rank" kvs);
     mi_pl_party_code := pl_party_code |}.

Definition text_of `{Runtime} (kvs : list (string * json)) (last_2 : string) : string :=
  "Rank " +:+ render (default JNull (assoc "rank" kvs))
  +:+ " (Party List " +:+ last_2 +:+ ")".

(** A PL entry the exclusion rule names: its party code is a string whose
    last two characters are 06 or 09. *)
Definition excluded (pl_entry : json) : bool :=
  match pl_entry with
  | JObj kvs =>
      match default (JStr "") (assoc "partyCode" kvs) with
      | JStr c => String.eqb (Str.last 2 c) "06" || String.eqb (Str.last 2 c) "09"
      | _ => false
      end
  | _ => false
  end.

(** What holds of a record the scan adds for the area [area_code], the MP
    number [mp_number] and the MP's party [mp_party]. *)
Definition recorded (area_code mp_number : string) (mp_party : json)
    (m : match_info) : Prop :=
  mi_area m = area_code /\ mi_mp_number m = mp_number /\ mi_mp_party m = mp_party
  /\ exists c, mi_pl_party_code m = JStr c
               /\ Str.last 2 c = mp_number
               /\ Str.last 2 c <> "06" /\ Str.last 2 c <> "09".

(** The state with the records [new] and nothing else. *)
Definition only_matches (new : list match_info) : state :=
  {| all_matches := new; all_rows := []; console := [] |}.

(** Entries the scan reads without an exception: objects whose party code
    is absent or a string. *)
Definition entry_ok (pl_entry : json) : bool :=
  match pl_entry with
  | JObj kvs =>
      match assoc "partyCode" kvs with
      | None | Some (JStr _) => true
      | Some _ => false
      end
  | _ => false
  end.

(** The row of an area. *)
Definition row_of (area_code mp_number : string) (mp_party : json)
    (matches : list string) : row :=
  {| row_area := area_code; row_mp_number := mp_number; row_mp_party := mp_party;
     row_matched := bool_decide (0 < length matches)%nat;
     row_status := status_of matches |}.

(** ** The preconditions of a row *)

(** The candidate code of the winner: the ["candidateCode"] string of the
    first entry of an MP object whose entries are a non-empty list. *)
Definition winner_code (mp_dir : gmap string file) (filename : string)
  : option string :=
  match mp_dir !! filename with
  | Some (Holds (JObj kvs)) =>
      match assoc "entries" kvs with
      | Some (JArr (JObj tkvs :: _)) =>
          match assoc "candidateCode" tkvs with
          | Some (JStr code) => Some code
          | _ => None
          end
      | _ => None
      end
  | _ => None
  end.

(** The preconditions of a row as first stated: the file is in both
    directories, the MP object has a non-empty entries list, and the
    winner's candidate code starts with the expected prefix. *)
Definition stated_precondition (mp_dir pl_dir : gmap string file)
    (filename : string) : bool :=
  bool_decide (is_Some (pl_dir !! filename))
  && match winner_code mp_dir filename with
     | Some code => Str.startswith (expected_prefix (area_code_of filename)) code
     | None => false
     end.

(** The PL file is read without an exception: an object whose entries,
    when it has any, are a list, the first 7 of them objects with a party
    code that is absent or a string. *)
Definition pl_readable (pl_dir : gmap string file) (filename : string) : bool :=
  match pl_dir !! filename with
  | Some (Holds (JObj pkvs)) =>
      match assoc "entries" pkvs with
      | None => true
      | Some (JArr l) => forallb entry_ok (take 7 l)
      | Some _ => false
      end
  | _ => false
  end.

(** The preconditions of a row: moreover the candidate code goes on after
    the prefix, and the PL file is read without an exception. *)
Definition row_precondition (mp_dir pl_dir : gmap string file)
    (filename : string) : bool :=
  match winner_code mp_dir filename with
  | Some code =>
      Str.startswith (expected_prefix (area_code_of filename)) code
      && (String.length (expected_prefix (area_code_of filename))
          <? String.length code)%nat
  | None => false
  end
  && pl_readable pl_dir filename.

(** The rows with a given area code. *)
Definition rows_of_area (area_code : string) (rows : list row) : list row :=
  filter (fun r => row_area r = area_code) rows.

(** ** The summary: keys and counts *)

(** The keys of the dict [party_counts], in insertion order, and the keys
    of the MP parties of the matches, in the order of the matches. *)
Definition party_keys (d : list (json * Z)) : list (option pykey) :=
  (fun pc => key_of pc.1) <$> d.

Definition match_keys (ms : list match_info) : list (option pykey) :=
  (fun m => key_of (mi_mp_party m)) <$> ms.

(** The keys in the order they are first seen: a key is added at the end
    unless it is there already. *)
Definition add_key (seen : list (option pykey)) (k : option pykey)
  : list (option pykey) :=
  if decide (k ∈ seen) then seen else seen ++ [k].


(** Whether a value is the string [s]. *)
#[global] Instance json_is_str_dec (v : json) (s : string) : Decision (v = JStr s).
Proof.
  destruct v as [| | | |s'| |]; try (right; discriminate).
  destruct (decide (s' = s)) as [->|Hne]; [by left|right; by intros [= ->]].
Defined.

(** Distinct strings are distinct keys. *)
#[global] Instance str_key_inj : Inj (=) (=) (fun s : string => Some (KStr s)).
Proof. by intros s1 s2 [= ->]. Qed.


(** How many matches have an MP party with the key [k]. *)
Definition occurrences (k : option pykey) (ms : list match_info) : Z :=
  Z.of_nat (length (filter (fun m => key_of (mi_mp_party m) = k) ms)).

(** The count the dict holds for the key [k]. *)
Definition dict_count (k : option pykey) (d : list (json * Z)) : Z :=
  foldr (fun pc acc => if decide (key_of pc.1 = k) then pc.2 + acc else acc) 0 d.

(** ** The files after an export *)

(** The history file after an export. *)
Definition history_after (r : result) : option file :=
  docs_data (final_world r) ≫= history_json.

(** The results file after an export. *)
Definition results_after (r : result) : option file :=
  docs_data (final_world r) ≫= results_json.

(** The history file before an export. *)
Definition history_before (w : world) : option file :=
  docs_data w ≫= history_json.

(** ** Sample directories *)

(** Two areas and a file that cannot be read.  Area 100 has the MP number
    05, which the party list has at rank 3 and again at rank 8; area 101
    has the MP number 09. *)
Definition sample_mp : gmap string file :=
  list_to_map
    [("100.json", mp_file_of "CANDIDATE-MP-10005" "PARTY-A");
     ("101.json", mp_file_of "CANDIDATE-MP-10109" "PARTY-B");
     ("102.json", Broken (LoadError "Expecting value"))].

Definition sample_pl_100 : list json :=
  [pl_entry_of "PARTY-0001" 1; pl_entry_of "PARTY-0002" 2;
   pl_entry_of "PARTY-0005" 3; pl_entry_of "PARTY-0004" 4;
   pl_entry_of "PARTY-0006" 5; pl_entry_of "PARTY-0007" 6;
   pl_entry_of "PARTY-0008" 7; pl_entry_of "PARTY-0105" 8].

Definition sample_pl : gmap string file :=
  list_to_map
    [("100.json", pl_file_of sample_pl_100);
     ("101.json", pl_file_of [pl_entry_of "PARTY-0009" 1]);
     ("102.json", pl_file_of [])].

Definition sample_world (history : option file) : world :=
  {| data_mp := Some sample_mp; data_pl := Some sample_pl;
     docs_data := Some {| results_json := None; history_json := history |} |}.

(** The MP number 6 of area 100 against the party code 6. *)
Definition single_mp : gmap string file :=
  {[ "100.json" := mp_file_of "CANDIDATE-MP-1006" "PARTY-A" ]}.

Definition single_pl : gmap string file :=
  {[ "100.json" := pl_file_of [pl_entry_of "6" 1] ]}.

(** A candidate code that is the prefix and nothing more. *)
Definition bare_prefix_mp : gmap string file :=
  {[ "100.json" := mp_file_of "CANDIDATE-MP-100" "PARTY-A" ]}.

Definition empty_pl : gmap string file :=
  {[ "100.json" := pl_file_of [] ]}.

(** Five matches: one of party A, then two of B and two of C in turn. *)
Definition sample_matches : list match_info :=
  (fun p => MatchInfo "100" "05" (JStr p) (JInt 1) (JStr "PARTY-0005"))
    <$> ["A"; "B"; "C"; "B"; "C"].

(** ** File names, the matches of a well-formed entry, the entry point *)

(** No character of [s] is a dot. *)
Fixpoint no_dot (s : string) : bool :=
  match s with
  | EmptyString => true
  | String c s' => negb (Ascii.eqb c ".") && no_dot s'
  end.

(** The record and the text of a PL entry with a string party code that
    matches the MP number: the last two characters of the code are the MP
    number and are neither 06 nor 09. *)
Definition match_of_entry `{Runtime} (area_code mp_number : string)
    (mp_party : json) (pl_entry : json) : option (match_info * string) :=
  match pl_entry with
  | JObj kvs =>
      match default (JStr "") (assoc "partyCode" kvs) with
      | JStr c =>
          if negb (excluded pl_entry) && String.eqb (Str.last 2 c) mp_number
          then Some (match_of area_code mp_number mp_party kvs (JStr c),
                     text_of kvs mp_number)
          else None
      | _ => None
      end
  | _ => None
  end.

(** The sum of the counts of a dict of counts. *)
Definition sum_counts (d : list (json * Z)) : Z :=
  foldr (fun pc acc => pc.2 + acc) 0 d.

(** What the entry point prints: its two lines, then the lines of
    [compare_mp_and_pl]. *)
Inductive main_line :=
| TitleLine
    (* --- MP winning number vs Top 8 Party List comparison --- *)
| LogicLine
    (* Logic: Ignores Party 06 and 09 *)
| Printed (l : line).

(** The block under [if __name__ == "__main__"]; [argv] is [sys.argv]. *)
Definition main `{Runtime} (argv : list string) (timestamp : string) (w : world)
  : world * list main_line * option exn :=
  let export := bool_decide ("--export" ∈ argv) in
  let r := compare_mp_and_pl export timestamp w in
  (final_world r, [TitleLine; LogicLine] ++ (Printed <$> output r), uncaught r).

(** The results file before a call. *)
Definition results_before (w : world) : option file :=
  docs_data w ≫= results_json.

(** An MP file whose winner has a list as party, and a PL file that
    matches its MP number. *)
Definition list_party_mp : gmap string file :=
  {[ "100.json" :=
       Holds (JObj [("entries",
                     JArr [JObj [("candidateCode", JStr "CANDIDATE-MP-10005");
                                 ("partyCode", JArr [])]])]) ]}.

Definition matching_pl : gmap string file :=
  {[ "100.json" := pl_file_of [pl_entry_of "PARTY-0005" 1] ]}.

(** ** Properties of [extend] and of framed computations *)

Lemma extend_no_change_r st : extend st no_change = st.
Proof. destruct st; unfold extend; simpl. by rewrite !app_nil_r. Qed.

Lemma extend_no_change_l d : extend no_change d = d.
Proof. by destruct d. Qed.

Lemma extend_assoc st d1 d2 : extend (extend st d1) d2 = extend st (extend d1 d2).
Proof. unfold extend; simpl. by rewrite !app_assoc. Qed.

Lemma print_extend l st : print l st = extend st (print l no_change).
Proof. by rewrite /print /extend /= !app_nil_r. Qed.

Lemma append_match_extend m st :
  append_match m st = extend st (append_match m no_change).
Proof. by rewrite /append_match /extend /= !app_nil_r. Qed.

Lemma append_row_extend r st : append_row r st = extend st (append_row r no_change).
Proof. by rewrite /append_row /extend /= !app_nil_r. Qed.

Lemma framed_ret {A} (a : A) : framed (mret a).
Proof. intros st. by rewrite /mret /M_ret /= extend_no_change_r. Qed.

Lemma framed_lift {A} (o : outcome A) : framed (lift o).
Proof. intros st. by rewrite /lift /= extend_no_change_r. Qed.

Lemma framed_update f :
  (forall st, f st = extend st (f no_change)) -> framed (update f).
Proof. intros Hf st. by rewrite /update /= -Hf. Qed.

Lemma framed_bind {A B} (m : M A) (k : A -> M B) :
  framed m -> (forall a, framed (k a)) -> framed (m ≫= k).
Proof.
  intros Hm Hk st. rewrite /mbind /M_bind (Hm st).
  destruct (m no_change) as [[a|e] d]; simpl; [|done].
  rewrite (Hk a (extend st d)) (Hk a d). simpl.
  by rewrite extend_assoc.
Qed.

Lemma framed_load f : framed (load f).
Proof. destruct f; [apply framed_lift | apply framed_ret]. Qed.

Create HintDb framed.
#[global] Hint Resolve framed_ret framed_lift framed_load : framed.
#[global] Hint Resolve print_extend append_match_extend append_row_extend : framed.

Ltac framed_step :=
  match goal with
  | |- framed (_ ≫= _) => apply framed_bind; [|intros ?]
  | |- framed (update _) => apply framed_update
  | |- framed (if ?b then _ else _) => destruct b
  | |- framed (match ?x with _ => _ end) => destruct x
  | |- _ => solve [auto with framed]
  end.

Section Framing.

Context `{Runtime}.

Lemma framed_scan_pl area_code mp_number mp_party pl_entries matches :
  framed (scan_pl area_code mp_number mp_party pl_entries matches).
Proof.
  revert matches. induction pl_entries as [|pl_entry rest IH]; intros matches.
  - apply framed_ret.
  - simpl. repeat framed_step; auto with framed.
Qed.

Lemma framed_winning_info area_code mp_file :
  framed (winning_info area_code mp_file).
Proof. unfold winning_info. repeat framed_step. Qed.

Lemma framed_top_7 pl_file : framed (top_7 pl_file).
Proof. unfold top_7. repeat framed_step. Qed.

Lemma framed_output_row area_code mp_number mp_party matches :
  framed (output_row area_code mp_number mp_party matches).
Proof. unfold output_row, print_row. repeat framed_step. Qed.

Lemma framed_try_block area_code mp_file pl_file :
  framed (try_block area_code mp_file pl_file).
Proof.
  unfold try_block.
  apply framed_bind; [apply framed_winning_info|].
  intros [[mp_number mp_party]|]; [|apply framed_ret].
  apply framed_bind; [apply framed_top_7|]. intros pl_entries.
  apply framed_bind; [apply framed_scan_pl|]. intros matches.
  apply framed_output_row.
Qed.

Lemma loop_body_extend mp_dir pl_dir st filename :
  loop_body mp_dir pl_dir st filename
  = extend st (area_delta mp_dir pl_dir filename).
Proof.
  unfold area_delta, loop_body.
  destruct (pl_dir !! filename) as [pl_file|]; [|by rewrite extend_no_change_r].
  rewrite (framed_try_block _ _ _ st).
  destruct (try_block _ _ _ no_change) as [[[]|e] d]; simpl.
  - done.
  - by rewrite (print_extend _ (extend _ _)) (print_extend _ d) extend_assoc.
Qed.

Lemma foldl_loop_body mp_dir pl_dir st files :
  foldl (loop_body mp_dir pl_dir) st files
  = extend st (foldl (loop_body mp_dir pl_dir) no_change files).
Proof.
  revert st. induction files as [|f files IH]; intros st; simpl.
  - by rewrite extend_no_change_r.
  - rewrite (IH (loop_body _ _ st f)) (IH (loop_body _ _ no_change f)).
    by rewrite (loop_body_extend _ _ st) extend_assoc.
Qed.

Lemma foldl_loop_body_rows mp_dir pl_dir st files :
  all_rows (foldl (loop_body mp_dir pl_dir) st files)
  = all_rows st ++ (files ≫= fun f => all_rows (area_delta mp_dir pl_dir f)).
Proof.
  revert st. induction files as [|f files IH]; intros st; simpl.
  - by rewrite app_nil_r.
  - by rewrite IH loop_body_extend /= app_assoc.
Qed.

Lemma foldl_loop_body_matches mp_dir pl_dir st files :
  all_matches (foldl (loop_body mp_dir pl_dir) st files)
  = all_matches st
    ++ (files ≫= fun f => all_matches (area_delta mp_dir pl_dir f)).
Proof.
  revert st. induction files as [|f files IH]; intros st; simpl.
  - by rewrite app_nil_r.
  - by rewrite IH loop_body_extend /= app_assoc.
Qed.

Lemma foldl_loop_body_console mp_dir pl_dir st files :
  console (foldl (loop_body mp_dir pl_dir) st files)
  = console st ++ (files ≫= fun f => console (area_delta mp_dir pl_dir f)).
Proof.
  revert st. induction files as [|f files IH]; intros st; simpl.
  - by rewrite app_nil_r.
  - by rewrite IH loop_body_extend /= app_assoc.
Qed.

End Framing.

(** ** Strings: the slice of a short string *)

Lemma str_last_short n s : (String.length s <= n)%nat -> Str.last n s = s.
Proof.
  intros Hlen. unfold Str.last.
  replace (String.length s - n)%nat with 0%nat by lia. by destruct s.
Qed.

Lemma eqb_refl_str s : String.eqb s s = true.
Proof. by apply String.eqb_eq. Qed.

Lemma short_not_excluded c :
  (String.length c < 2)%nat -> in_strs (JStr c) ["06"; "09"] = false.
Proof.
  intros Hlen. destruct c as [|a [|b c]]; simpl in *; [done| |lia].
  by destruct (Ascii.eqb a "0").
Qed.

(** ** The scan of the PL entries, one entry at a time *)

Section Scan.

Context `{Runtime}.

(** An entry with a string party code that is excluded, or is not the MP
    number, is passed over. *)
Lemma scan_pl_skip area_code mp_number mp_party kvs c rest matches st :
  default (JStr "") (assoc "partyCode" kvs) = JStr c ->
  in_strs (JStr (Str.last 2 c)) ["06"; "09"]
  || negb (String.eqb (Str.last 2 c) mp_number) = true ->
  scan_pl area_code mp_number mp_party (JObj kvs :: rest) matches st
  = scan_pl area_code mp_number mp_party rest matches st.
Proof.
  intros Hcode Hskip. cbn [scan_pl].
  rewrite /mbind /M_bind /lift /py_get Hcode /=.
  simpl in Hskip.
  destruct (_ || (_ || false)); [done|]. simpl in Hskip.
  by destruct (String.eqb _ _).
Qed.

(** An entry with a string party code that is not excluded and whose last
    two characters are the MP number is recorded. *)
Lemma scan_pl_match area_code mp_number mp_party kvs c rest matches st :
  default (JStr "") (assoc "partyCode" kvs) = JStr c ->
  in_strs (JStr (Str.last 2 c)) ["06"; "09"] = false ->
  Str.last 2 c = mp_number ->
  scan_pl area_code mp_number mp_party (JObj kvs :: rest) matches st
  = scan_pl area_code mp_number mp_party rest
      (matches ++ [text_of kvs mp_number])
      (append_match (match_of area_code mp_number mp_party kvs (JStr c)) st).
Proof.
  intros Hcode Hin Heq. cbn [scan_pl].
  rewrite /mbind /M_bind /lift /py_get Hcode /=.
  simpl in Hin. by rewrite Hin Heq eqb_refl_str.
Qed.

End Scan.

(** C10: the slice [s[-2:]] of a string shorter than two characters is the
    string itself, and such a string is neither ["06"] nor ["09"]; so a PL
    entry whose party code is a single character (["6"] or ["9"], say) is
    not excluded, and the scan records it as a match when the MP number is
    that same character. *)
Theorem single_character_code_is_matched `{Runtime} (c area_code : string)
    (mp_party : json) (kvs : list (string * json)) (rest : list json)
    (matches : list string) (st : state) :
  (String.length c < 2)%nat ->
  assoc "partyCode" kvs = Some (JStr c) ->
  Str.last 2 c = c
  /\ in_strs (JStr (Str.last 2 c)) ["06"; "09"] = false
  /\ scan_pl area_code c mp_party (JObj kvs :: rest) matches st
     = scan_pl area_code c mp_party rest
         (matches ++ [text_of kvs c])
         (append_match (match_of area_code c mp_party kvs (JStr c)) st).
Proof.
  intros Hlen Hcode.
  assert (Hlast : Str.last 2 c = c) by (apply str_last_short; lia).
  assert (Hin : in_strs (JStr (Str.last 2 c)) ["06"; "09"] = false)
    by (rewrite Hlast; by apply short_not_excluded).
  split; [done|]. split; [done|].
  apply scan_pl_match; [by rewrite Hcode|done|done].
Qed.

(** The party code ["6"] against the MP number ["6"]. *)
Lemma single_character_code_is_matched_witness :
  (String.length "6" < 2)%nat
  /\ scan_pl (H := basic_runtime) "100" "6" (JStr "PARTY-A")
       [pl_entry_of "6" 1] [] no_change
     = (Return ["Rank 1 (Party List 6)"],
        {| all_matches := [MatchInfo "100" "6" (JStr "PARTY-A") (JInt 1) (JStr "6")];
           all_rows := []; console := [] |}).
Proof.
  split; [simpl; lia|].
  pose proof (single_character_code_is_matched (H := basic_runtime)
                "6" "100" (JStr "PARTY-A")
                [("partyCode", JStr "6"); ("rank", JInt 1)] [] [] no_change
                ltac:(simpl; lia) eq_refl) as (_ & _ & Hscan).
  exact Hscan.
Defined.

(** ** Steps that leave the state alone *)

Lemma pure_ret {A} (a : A) : pure (mret a).
Proof. by intros st. Qed.

Lemma pure_lift {A} (o : outcome A) : pure (lift o).
Proof. by intros st. Qed.

Lemma pure_bind {A B} (m : M A) (k : A -> M B) :
  pure m -> (forall a, pure (k a)) -> pure (m ≫= k).
Proof.
  intros Hm Hk st. rewrite /mbind /M_bind (Hm st).
  destruct (m no_change) as [[a|e] d] eqn:Hd; simpl; [|done].
  rewrite (Hk a st). f_equal.
  specialize (Hm no_change). rewrite Hd /= in Hm.
  injection Hm as ->. done.
Qed.

Lemma pure_load f : pure (load f).
Proof. destruct f; [apply pure_lift | apply pure_ret]. Qed.

#[global] Hint Resolve pure_ret pure_lift pure_load : framed.

Ltac pure_step :=
  match goal with
  | |- pure (_ ≫= _) => apply pure_bind; [|intros ?]
  | |- pure (if ?b then _ else _) => destruct b
  | |- pure (match ?x with _ => _ end) => destruct x
  | |- _ => solve [auto with framed]
  end.

Lemma winning_info_pure area_code mp_file st :
  winning_info area_code mp_file st = (info_of area_code mp_file, st).
Proof.
  revert st. change (pure (winning_info area_code mp_file)).
  unfold winning_info. repeat pure_step.
Qed.

Lemma top_7_pure pl_file st : top_7 pl_file st = (entries_of pl_file, st).
Proof.
  revert st. change (pure (top_7 pl_file)).
  unfold top_7. repeat pure_step.
Qed.

(** The [try] block, step by step. *)
Lemma try_block_unfold `{Runtime} area_code mp_file pl_file st :
  try_block area_code mp_file pl_file st
  = match info_of area_code mp_file with
    | Raise e => (Raise e, st)
    | Return None => (Return tt, st)
    | Return (Some (mp_number, mp_party)) =>
        match entries_of pl_file with
        | Raise e => (Raise e, st)
        | Return pl_entries =>
            match scan_pl area_code mp_number mp_party pl_entries [] st with
            | (Raise e, st1) => (Raise e, st1)
            | (Return matches, st1) =>
                output_row area_code mp_number mp_party matches st1
            end
        end
    end.
Proof.
  rewrite /try_block /mbind /M_bind winning_info_pure.
  destruct (info_of _ _) as [[[mp_number mp_party]|]|e]; [|done|done].
  rewrite top_7_pure. by destruct (entries_of _).
Qed.

(** Only the list under ["entries"] of a PL object is read, and only its
    first seven items. *)
Lemma entries_of_object kvs l :
  assoc "entries" kvs = Some (JArr l) ->
  entries_of (Holds (JObj kvs)) = Return (take 7 l).
Proof. intros Hl. by rewrite /entries_of /top_7 /mbind /M_bind /= Hl. Qed.

Lemma foldl_pointwise {A B} (f g : A -> B -> A) (l : list B) (a : A) :
  (forall a b, f a b = g a b) -> foldl f a l = foldl g a l.
Proof.
  intros Hfg. revert a. induction l as [|b l IH]; intros a; [done|].
  simpl. by rewrite Hfg IH.
Qed.

(** C5: only the first 7 entries of a PL object are examined.  Cutting the
    entries of any PL file down to the first seven leaves the whole loop
    (the matches, the rows and the console) as it is: an entry at index 7
    or beyond is never read. *)
Theorem only_first_seven_entries `{Runtime} (mp_dir pl_dir : gmap string file)
    (filename : string) (kvs : list (string * json)) (l : list json) :
  pl_dir !! filename = Some (Holds (JObj kvs)) ->
  assoc "entries" kvs = Some (JArr l) ->
  main_loop mp_dir
    (<[filename := Holds (JObj [("entries", JArr (take 7 l))])]> pl_dir)
  = main_loop mp_dir pl_dir.
Proof.
  intros Hfile Hentries. unfold main_loop.
  apply foldl_pointwise. intros st g. unfold loop_body.
  destruct (decide (filename = g)) as [<-|Hne].
  - rewrite lookup_insert_eq Hfile !try_block_unfold.
    rewrite (entries_of_object kvs l Hentries).
    rewrite (entries_of_object [("entries", JArr (take 7 l))] (take 7 l) eq_refl).
    by rewrite take_take.
  - by rewrite lookup_insert_ne.
Qed.

(** C9: without the export flag the file system is left as it was found. *)
Theorem no_export_no_write `{Runtime} (timestamp : string) (w : world) :
  final_world (compare_mp_and_pl false timestamp w) = w.
Proof. unfold compare_mp_and_pl. by repeat case_match. Qed.

(** The rank-8 entry of area 100 ends in 05, as the MP number does. *)
Lemma only_first_seven_entries_witness :
  main_loop (H := basic_runtime) sample_mp
    (<["100.json" := pl_file_of (take 7 sample_pl_100)]> sample_pl)
  = main_loop (H := basic_runtime) sample_mp sample_pl.
Proof.
  apply (only_first_seven_entries (H := basic_runtime) sample_mp sample_pl
           "100.json" [("entries", JArr sample_pl_100)] sample_pl_100).
  - vm_compute. reflexivity.
  - reflexivity.
Defined.

(** ** Floats: how far a quotient and a product are from the exact value

    The shifts of [SpecFloat] divide the mantissa by a power of two, and
    rounding moves it by at most one; this bounds the error of a division
    and of a product by a few units in the last place, which is enough to
    tell which hundredth [round] picks. *)

Lemma digits2_lower p : 2 ^ (Zpos (digits2_pos p) - 1) <= Zpos p.
Proof.
  induction p as [p IH|p IH|]; simpl digits2_pos.
  - rewrite Pos2Z.inj_succ.
    replace (Z.succ (Zpos (digits2_pos p)) - 1) with (Z.succ (Zpos (digits2_pos p) - 1)) by lia.
    rewrite -> Z.pow_succ_r by lia. lia.
  - rewrite Pos2Z.inj_succ.
    replace (Z.succ (Zpos (digits2_pos p)) - 1) with (Z.succ (Zpos (digits2_pos p) - 1)) by lia.
    rewrite -> Z.pow_succ_r by lia. lia.
  - simpl. lia.
Qed.

Lemma Zdigits2_bound m a : 0 <= m -> 0 <= a -> m < 2 ^ a -> Zdigits2 m <= a.
Proof.
  intros Hm Ha Hlt. destruct m as [|p|p]; simpl; [lia| |lia].
  pose proof (digits2_lower p) as Hlow.
  destruct (Z_le_gt_dec (Zpos (digits2_pos p)) a) as [|Hgt]; [done|].
  assert (2 ^ a <= 2 ^ (Zpos (digits2_pos p) - 1)) by (apply Z.pow_le_mono_r; lia).
  lia.
Qed.

Lemma shr_1_m r : 0 <= shr_m r -> shr_m (shr_1 r) = shr_m r / 2.
Proof.
  destruct r as [m r s]. cbn. intros Hm.
  destruct m as [|[p|p|]|p]; cbn.
  - reflexivity.
  - apply Z.div_unique with 1; lia.
  - apply Z.div_unique with 0; lia.
  - reflexivity.
  - lia.
Qed.

Lemma pow2_pos k : 0 <= k -> 0 < 2 ^ k.
Proof. intros Hk. apply Z.pow_pos_nonneg; lia. Qed.

Lemma div_pow2_twice m a b : 0 <= a -> 0 <= b -> m / 2 ^ a / 2 ^ b = m / 2 ^ (a + b).
Proof.
  intros Ha Hb. pose proof (pow2_pos a Ha). pose proof (pow2_pos b Hb).
  rewrite -> Z.pow_add_r by lia. rewrite Z.div_div; lia.
Qed.

Lemma iter_shr_m p r :
  0 <= shr_m r -> shr_m (SpecFloat.iter_pos shr_1 p r) = shr_m r / 2 ^ Zpos p.
Proof.
  revert r. induction p as [p IH|p IH|]; intros r Hm; simpl SpecFloat.iter_pos.
  - assert (0 <= shr_m (shr_1 r)) as H1 by (rewrite shr_1_m; [apply Z.div_pos; lia|done]).
    assert (0 <= shr_m (SpecFloat.iter_pos shr_1 p (shr_1 r))) as H2.
    { rewrite IH; [|done]. apply Z.div_pos; [lia|apply pow2_pos; lia]. }
    rewrite -> IH by done. rewrite -> IH by done. rewrite -> shr_1_m by done.
    change 2 with (2 ^ 1) at 1. rewrite -> !div_pow2_twice by lia.
    f_equal. f_equal. lia.
  - assert (0 <= shr_m (SpecFloat.iter_pos shr_1 p r)) as H2.
    { rewrite IH; [|done]. apply Z.div_pos; [lia|apply pow2_pos; lia]. }
    rewrite -> IH by done. rewrite -> IH by done.
    rewrite -> !div_pow2_twice by lia.
    f_equal. f_equal. lia.
  - by rewrite shr_1_m.
Qed.

(** The mantissa after a shift. *)
Lemma shr_record_of_loc_m m l : shr_m (shr_record_of_loc m l) = m.
Proof. by destruct l as [|[]]. Qed.

Lemma shr_fexp_crude m e l U :
  0 <= m -> e <= U -> -1074 <= U -> m < 2 ^ (U - e + 53) ->
  exists k, 0 <= k /\ e + k <= U
    /\ snd (shr_fexp 53 1024 m e l) = e + k
    /\ shr_m (fst (shr_fexp 53 1024 m e l)) = m / 2 ^ k.
Proof.
  intros Hm He HU Hlt.
  assert (Zdigits2 m <= U - e + 53) as Hd by (apply Zdigits2_bound; lia).
  rewrite /shr_fexp /shr /fexp /emin.
  destruct (Z.max (Zdigits2 m + e - 53) (3 - 1024 - 53) - e) as [|p|p] eqn:Hk.
  - exists 0. cbn [fst snd]. rewrite shr_record_of_loc_m Z.div_1_r. lia.
  - exists (Zpos p). cbn [fst snd].
    rewrite -> iter_shr_m by (rewrite shr_record_of_loc_m; lia).
    rewrite shr_record_of_loc_m. lia.
  - exists 0. cbn [fst snd]. rewrite shr_record_of_loc_m Z.div_1_r. lia.
Qed.

Lemma round_nearest_even_near m l :
  round_nearest_even m l = m \/ round_nearest_even m l = m + 1.
Proof.
  rewrite /round_nearest_even. destruct l as [|[]]; auto.
  destruct (Z.even m); auto.
Qed.

Lemma div_pow2_bounds m k : 0 <= k -> m / 2 ^ k * 2 ^ k <= m < m / 2 ^ k * 2 ^ k + 2 ^ k.
Proof.
  intros Hk. pose proof (pow2_pos k Hk) as Hp.
  pose proof (Z.div_mod m (2 ^ k)). pose proof (Z.mod_pos_bound m (2 ^ k) Hp). lia.
Qed.

(** Rounding a mantissa below [2 ^ (U - ex + 52)]: the result is a float
    with an exponent of at most [U], within two units of its last place. *)
Lemma binary_round_aux_crude mx ex lx U :
  0 < mx -> ex <= U -> -1074 <= U -> U <= 971 -> mx < 2 ^ (U - ex + 52) ->
  exists K m2, 0 <= K /\ ex + K <= U /\ 0 <= m2
    /\ m2 * 2 ^ K <= mx + 2 ^ K /\ mx < m2 * 2 ^ K + 2 * 2 ^ K
    /\ binary_round_aux 53 1024 false mx ex lx
       = match m2 with Zpos p => S754_finite false p (ex + K) | _ => S754_zero false end.
Proof.
  intros Hmx Hex HU HU' Hlt.
  assert (2 ^ (U - ex + 53) = 2 * 2 ^ (U - ex + 52)) as Hpow.
  { replace (U - ex + 53) with (Z.succ (U - ex + 52)) by lia. apply Z.pow_succ_r. lia. }
  destruct (shr_fexp_crude mx ex lx U) as (k1 & Hk1 & He1 & Hs1 & Hm1); [lia..|].
  rewrite /binary_round_aux.
  destruct (shr_fexp 53 1024 mx ex lx) as [mrs' e'] eqn:Hshr1. cbn [fst snd] in Hs1, Hm1.
  subst e'.
  set (M := round_nearest_even (shr_m mrs') (loc_of_shr_record mrs')).
  pose proof (div_pow2_bounds mx k1 Hk1) as Hb1.
  pose proof (pow2_pos k1 Hk1) as Hp1.
  assert (0 <= mx / 2 ^ k1) as Hm1pos by (apply Z.div_pos; lia).
  assert (mx / 2 ^ k1 < 2 ^ (U - (ex + k1) + 52)) as Hm1lt.
  { apply Z.div_lt_upper_bound; [lia|].
    rewrite <- Z.pow_add_r by lia. by replace (k1 + (U - (ex + k1) + 52)) with (U - ex + 52) by lia. }
  assert (M = mx / 2 ^ k1 \/ M = mx / 2 ^ k1 + 1) as HM
    by (rewrite -Hm1; apply round_nearest_even_near).
  assert (2 ^ (U - (ex + k1) + 53) = 2 * 2 ^ (U - (ex + k1) + 52)) as Hpow'.
  { replace (U - (ex + k1) + 53) with (Z.succ (U - (ex + k1) + 52)) by lia. apply Z.pow_succ_r. lia. }
  destruct (shr_fexp_crude M (ex + k1) loc_Exact U) as (k2 & Hk2 & He2 & Hs2 & Hm2); [lia..|].
  destruct (shr_fexp 53 1024 M (ex + k1) loc_Exact) as [mrs'' e''] eqn:Hshr2.
  cbn [fst snd] in Hs2, Hm2. subst e''.
  pose proof (div_pow2_bounds M k2 Hk2) as Hb2.
  pose proof (pow2_pos k2 Hk2) as Hp2.
  assert (0 <= M / 2 ^ k2) as Hm2pos by (apply Z.div_pos; lia).
  exists (k1 + k2), (M / 2 ^ k2).
  rewrite -> Z.pow_add_r by lia.
  split; [lia|]. split; [lia|]. split; [lia|]. split; [nia|]. split; [nia|].
  rewrite Hm2. destruct (M / 2 ^ k2) as [|p|p] eqn:Hq; [done| |lia].
  replace (ex + k1 + k2 <=? 1024 - 53) with true by (symmetry; apply Z.leb_le; lia).
  by rewrite Z.add_assoc.
Qed.

Lemma digits2_upper p : Zpos p < 2 ^ Zpos (digits2_pos p).
Proof.
  induction p as [p IH|p IH|]; simpl digits2_pos.
  - rewrite Pos2Z.inj_succ. rewrite -> Z.pow_succ_r by lia. lia.
  - rewrite Pos2Z.inj_succ. rewrite -> Z.pow_succ_r by lia. lia.
  - simpl. lia.
Qed.

Lemma round_half_even_spec num den :
  0 < den -> 2 * Z.abs (num - Float.round_half_even num den * den) <= den.
Proof.
  intros Hden. rewrite /Float.round_half_even.
  pose proof (Z.div_mod num den). pose proof (Z.mod_pos_bound num den Hden).
  destruct (Z.compare_spec (2 * (num mod den)) den); [destruct (Z.even _)|..]; lia.
Qed.

Lemma round_half_even_nonneg num den : 0 <= num -> 0 < den -> 0 <= Float.round_half_even num den.
Proof.
  intros Hnum Hden. rewrite /Float.round_half_even.
  assert (0 <= num / den) by (apply Z.div_pos; lia).
  destruct (_ ?= _); [destruct (Z.even _)|..]; lia.
Qed.

(** [p / q] for [p <= q <= 2 ^ 32]. *)
Lemma true_div_crude (p q : positive) :
  Zpos p <= Zpos q -> Zpos q <= 2 ^ 32 ->
  exists M E,
    Float.true_div (Zpos p) (Zpos q) = S754_finite false M (- E)
    /\ 51 <= E
    /\ Z.abs (Zpos M * Zpos q - Zpos p * 2 ^ E) <= 3 * Zpos q.
Proof.
  intros Hle Hq. cbn [Float.true_div]. rewrite /SFdiv /SFdiv_core_binary.
  set (d1 := Zdigits2 (Zpos p)). set (d2 := Zdigits2 (Zpos q)).
  assert (1 <= d1) as Hd1 by (rewrite /d1 /=; lia).
  assert (d2 <= 33) as Hd2 by (apply Zdigits2_bound; lia).
  assert (d1 <= d2) as Hd.
  { apply Zdigits2_bound; [lia|rewrite /d2 /=; lia|].
    pose proof (digits2_upper q). rewrite /d2 /=. lia. }
  rewrite /fexp /emin.
  replace (Z.min (Z.max (d1 + 0 - (d2 + 0) - 53) (3 - 1024 - 53)) (0 - 0)) with (- (53 + d2 - d1)) by lia.
  set (s := 53 + d2 - d1).
  replace (0 - 0 - - s) with s by lia.
  assert (53 <= s) as Hs by (rewrite /s; lia).
  destruct s as [|s'|s'] eqn:Hs'; [lia| |lia]. rewrite -Hs'.
  rewrite -> Z.shiftl_mul_pow2 by lia.
  pose proof (pow2_pos s ltac:(lia)) as Hps.
  pose proof (Z.div_mod (Zpos p * 2 ^ s) (Zpos q) ltac:(lia)) as Hdm.
  pose proof (Z.mod_pos_bound (Zpos p * 2 ^ s) (Zpos q) ltac:(lia)) as Hmod.
  rewrite /Z.modulo /Z.div in Hdm, Hmod.
  destruct (Z.div_eucl (Zpos p * 2 ^ s) (Zpos q)) as [q0 r0].
  assert (2 ^ s = 2 ^ 32 * 2 ^ (s - 32)) as Hsplit
    by (rewrite <- Z.pow_add_r by lia; f_equal; lia).
  pose proof (pow2_pos (s - 32) ltac:(lia)) as Hps32.
  assert (2 <= 2 ^ (s - 32)) as Hbig.
  { change 2 with (2 ^ 1) at 1. apply Z.pow_le_mono_r; lia. }
  assert (0 < q0) as Hq0 by nia.
  assert (q0 <= 2 ^ s) as Hq0' by nia.
  destruct (binary_round_aux_crude q0 (- s) (new_location (Zpos q) r0) (-51))
    as (K & m2 & HK & HE & Hm2 & Hup & Hlow & Hres); [lia..| |].
  { replace (-51 - - s + 52) with (Z.succ s) by lia. rewrite -> Z.pow_succ_r by lia. lia. }
  cbn [xorb]. rewrite Hres.
  pose proof (pow2_pos K HK) as HpK.
  assert (2 ^ s = 2 ^ K * 2 ^ (s - K)) as Hsplit'
    by (rewrite <- Z.pow_add_r by lia; f_equal; lia).
  pose proof (pow2_pos (s - K) ltac:(lia)) as HpP.
  set (P := 2 ^ (s - K)) in *.
  assert (m2 * Zpos q <= Zpos p * P + Zpos q) as Hle1.
  { apply Z.mul_le_mono_pos_r with (2 ^ K); [done|]. nia. }
  assert (Zpos p * P < m2 * Zpos q + 3 * Zpos q) as Hlt1.
  { apply Z.mul_lt_mono_pos_r with (2 ^ K); [done|]. nia. }
  assert (2 ^ 51 <= P) as HP by (apply Z.pow_le_mono_r; lia).
  destruct m2 as [|M|M]; [nia| |lia].
  exists M, (s - K). split; [f_equal; lia|]. split; [lia|]. fold P. lia.
Qed.

Lemma of_Z_100 : Float.of_Z 100 = S754_finite false 7036874417766400 (-46).
Proof. reflexivity. Qed.

(** [x * 100] for [x] close to a quotient [p / q]. *)
Lemma times_100_crude (M : positive) (E : Z) (q : Z) :
  51 <= E -> 0 < q <= 2 ^ 32 ->
  (exists p, 0 < p <= q /\ Z.abs (Zpos M * q - p * 2 ^ E) <= 3 * q) ->
  exists M' E' K,
    Float.mul (S754_finite false M (- E)) (Float.of_Z 100) = S754_finite false M' (- E')
    /\ 44 <= E' /\ 0 <= K /\ 2 ^ E' * 2 ^ K = 2 ^ E * 2 ^ 46
    /\ Z.abs (Zpos M' * 2 ^ K - 100 * 2 ^ 46 * Zpos M) <= 2 * 2 ^ K.
Proof.
  intros HE Hq (p & Hp & Hclose).
  rewrite of_Z_100 /Float.mul /SFmul. cbn [xorb].
  pose proof (pow2_pos E ltac:(lia)) as HpE.
  assert (2 ^ 51 <= 2 ^ E) as HP by (apply Z.pow_le_mono_r; lia).
  set (P := 2 ^ E) in *.
  assert (Zpos M <= P + 3) as HM by nia.
  assert (P <= (Zpos M + 3) * 2 ^ 32) as HM' by nia.
  destruct (binary_round_aux_crude (Zpos (M * 7036874417766400)) (- E + -46) loc_Exact (-44))
    as (K & m2 & HK & HE' & Hm2 & Hup & Hlow & Hres); [lia..| |].
  { replace (-44 - (- E + -46) + 52) with (54 + E) by lia.
    rewrite -> Z.pow_add_r by lia. fold P. rewrite Pos2Z.inj_mul. lia. }
  rewrite Hres. rewrite Pos2Z.inj_mul in Hup, Hlow.
  pose proof (pow2_pos K HK) as HpK.
  assert (2 ^ K <= 2 ^ (E + 2)) as HK2 by (apply Z.pow_le_mono_r; lia).
  rewrite -> Z.pow_add_r in HK2 by lia. fold P in HK2.
  destruct m2 as [|M'|M']; [lia| |lia].
  exists M', (E + 46 - K), K.
  split; [f_equal; lia|]. split; [lia|]. split; [done|].
  split; [|lia].
  unfold P. rewrite <- !Z.pow_add_r by lia. f_equal. lia.
Qed.

(** [round(m / t * 100, 2)] is the float nearest to [n / 100] for an
    integer [n] nearest to [10000 * m / t]. *)
Lemma rate_nearest (m t : Z) :
  0 <= m <= t -> 0 < t <= 2 ^ 32 ->
  exists n,
    0 <= n /\ 2 * Z.abs (10000 * m - n * t) <= t
    /\ Float.round2 (Float.mul (Float.true_div m t) (Float.of_Z 100))
       = match n with
         | Zpos p => SFdiv 53 1024 (S754_finite false p 0) (S754_finite false 100 0)
         | _ => S754_zero false
         end.
Proof.
  intros Hm Ht. destruct t as [|q|q]; [lia| |lia].
  destruct m as [|p|p]; [| |lia].
  { exists 0. split; [lia|]. split; [lia|]. reflexivity. }
  destruct (true_div_crude p q) as (M & E & Hdiv & HE & Hclose); [lia..|].
  destruct (times_100_crude M E (Zpos q)) as (M' & E' & K & Hmul & HE' & HK & Hpow & Hclose');
    [lia..|by exists (Zpos p); lia|].
  rewrite Hdiv Hmul /Float.round2.
  replace (0 <=? - E') with false by (symmetry; apply Z.leb_gt; lia).
  rewrite Z.opp_involutive.
  pose proof (pow2_pos E' ltac:(lia)) as HpE'.
  pose proof (round_half_even_spec (Zpos M' * 100) (2 ^ E') HpE') as Hround.
  pose proof (round_half_even_nonneg (Zpos M' * 100) (2 ^ E') ltac:(lia) HpE') as Hn.
  set (n := Float.round_half_even (Zpos M' * 100) (2 ^ E')) in *.
  exists n. split; [done|]. split; [|by destruct n].
  pose proof (pow2_pos K HK) as HpK.
  pose proof (pow2_pos E ltac:(lia)) as HpE.
  assert (2 ^ 51 <= 2 ^ E) as HP by (apply Z.pow_le_mono_r; lia).
  assert (2 ^ 44 <= 2 ^ E') as HP' by (apply Z.pow_le_mono_r; lia).
  set (P := 2 ^ E) in *. set (P' := 2 ^ E') in *. set (A := 2 ^ K) in *.
  set (W := P * 2 ^ 46) in *.
  assert (0 < W) as HW by lia.
  apply Z.mul_le_mono_pos_r with W; [done|].
  assert (Z.abs (Zpos M' * A * Zpos q - 100 * 2 ^ 46 * (Zpos M * Zpos q)) <= 2 * (A * Zpos q)) as H2 by nia.
  assert (2 * Z.abs (100 * (Zpos M' * A * Zpos q) - n * Zpos q * W) <= Zpos q * W) as H3.
  { rewrite -Hpow.
    replace (100 * (Zpos M' * A * Zpos q) - n * Zpos q * (P' * A))
      with ((Zpos M' * 100 - n * P') * (A * Zpos q)) by ring.
    rewrite Z.abs_mul (Z.abs_eq (A * Zpos q)); [|lia]. nia. }
  assert (800 * (A * Zpos q) < W) as H4.
  { rewrite -Hpow. nia. }
  assert (Zpos p * W = 2 ^ 46 * (Zpos p * P)) as H5 by (rewrite /W; ring).
  replace (2 * Z.abs (10000 * Zpos p - n * Zpos q) * W)
    with (2 * Z.abs (10000 * (Zpos p * W) - n * Zpos q * W)).
  2:{ replace (10000 * (Zpos p * W) - n * Zpos q * W) with ((10000 * Zpos p - n * Zpos q) * W) by ring.
      rewrite Z.abs_mul (Z.abs_eq W); lia. }
  assert (120000 * 2 ^ 46 * Zpos q < W) as H6 by (rewrite /W; lia).
  enough (2 * Z.abs (10000 * (Zpos p * W) - n * Zpos q * W) < Zpos q * W + W) as Hlt.
  { assert (exists d, 10000 * (Zpos p * W) - n * Zpos q * W = d * W) as [d Hd]
      by (exists (10000 * Zpos p - n * Zpos q); ring).
    rewrite -> Hd, Z.abs_mul, (Z.abs_eq W) in Hlt by lia.
    rewrite -> Hd, Z.abs_mul, (Z.abs_eq W) by lia.
    assert (2 * Z.abs d < Zpos q + 1) as Hd' by (apply Z.mul_lt_mono_pos_r with W; [done|lia]).
    rewrite Z.mul_assoc. apply Z.mul_le_mono_nonneg_r; lia. }
  rewrite H5.
  generalize dependent (Zpos p * P). generalize dependent (Zpos M * Zpos q).
  generalize dependent (Zpos M' * A * Zpos q). generalize dependent (n * Zpos q * W).
  generalize dependent (A * Zpos q). generalize dependent (Zpos q * W).
  intros. lia.
Qed.

(** ** The export *)

Lemma history_before_default w :
  history_json (default empty_dir (docs_data w)) = history_before w.
Proof. unfold history_before. by destruct (docs_data w). Qed.

(** C7: on export, a history file that is absent or cannot be loaded counts
    as the empty list: the call does not raise and leaves a history of one
    element, the new snapshot.  A history file holding an array is
    rewritten with the snapshot after the elements it had. *)
Theorem history_is_appended (timestamp : string) (rows : list row)
    (matches : list match_info) (party_counts : list (json * Z)) (w : world)
    (out : list line) :
  let snapshot := snapshot_json timestamp rows (sorted_parties party_counts) in
  let r := export_results timestamp rows matches party_counts w out in
  (history_before w = None \/ (exists e, history_before w = Some (Broken e)) ->
   uncaught r = None /\ history_after r = Some (Holds (JArr [snapshot])))
  /\ (forall l, history_before w = Some (Holds (JArr l)) ->
      uncaught r = None /\ history_after r = Some (Holds (JArr (l ++ [snapshot])))).
Proof.
  intros snapshot r. subst r. unfold export_results, history_after.
  rewrite /= history_before_default. split.
  - intros [->|[e ->]]; done.
  - by intros l ->.
Qed.

(** A history file that is not JSON, then one that holds one element. *)
Lemma history_is_appended_witness :
  let r1 := export_results "T" [] [] []
              (sample_world (Some (Broken (LoadError "Expecting value")))) [] in
  let r2 := export_results "T" [] [] []
              (sample_world (Some (Holds (JArr [JInt 1])))) [] in
  (uncaught r1 = None
   /\ history_after r1 = Some (Holds (JArr [snapshot_json "T" [] []])))
  /\ (uncaught r2 = None
      /\ history_after r2 = Some (Holds (JArr [JInt 1; snapshot_json "T" [] []]))).
Proof.
  split.
  - apply (proj1 (history_is_appended "T" [] [] []
                    (sample_world (Some (Broken (LoadError "Expecting value")))) [])).
    right. eexists. reflexivity.
  - apply (proj2 (history_is_appended "T" [] [] []
                    (sample_world (Some (Holds (JArr [JInt 1])))) []) [JInt 1]).
    reflexivity.
Defined.

(** X13: a history file holding a value that is not a list ends the call
    with an exception, after the results file is written; the history file
    is left as it was. *)
Lemma history_not_a_list timestamp rows matches party_counts w out v :
  history_before w = Some (Holds v) ->
  type_of v <> TList ->
  let r := export_results timestamp rows matches party_counts w out in
  uncaught r = Some (AttributeError (type_of v) "append")
  /\ history_after r = Some (Holds v)
  /\ results_after r
     = Some (Holds (results_json_of timestamp rows matches
                      (sorted_parties party_counts))).
Proof.
  intros Hbefore Hty. unfold export_results, history_after, results_after.
  rewrite /= history_before_default Hbefore /=.
  by destruct v.
Qed.

(** C6: in the exported results, [total_areas] is the number of rows and
    [matched_areas] the number of rows with [matched] true.  [match_rate] is
    the integer 0 when there is no row.  Otherwise it is a float: the
    binary64 number nearest to [n / 100], where the integer [n] is within
    one half of [matched_areas / total_areas * 100 * 100], that is, [n / 100]
    is the rate rounded to two decimals (for up to [2 ^ 32] rows, where the
    rounding errors of the division and of the product cannot move the
    result to another hundredth). *)
Theorem match_rate_exported (timestamp : string) (rows : list row)
    (matches : list match_info) (party_counts : list (json * Z)) (w : world)
    (out : list line) :
  let total := Z.of_nat (length rows) in
  let matched := Z.of_nat (length (filter (fun r => row_matched r = true) rows)) in
  exists fields rate,
    results_after (export_results timestamp rows matches party_counts w out)
    = Some (Holds (JObj fields))
    /\ assoc "total_areas" fields = Some (JInt total)
    /\ assoc "matched_areas" fields = Some (JInt matched)
    /\ assoc "match_rate" fields = Some rate
    /\ (total = 0 -> rate = JInt 0)
    /\ (0 < total -> exists y, rate = JFloat y)
    /\ (0 < total <= 2 ^ 32 ->
        exists n,
          0 <= n <= 10000
          /\ 2 * Z.abs (100 * (100 * matched) - n * total) <= total
          /\ rate = JFloat match n with
                           | Zpos p =>
                               SFdiv 53 1024 (S754_finite false p 0)
                                             (S754_finite false 100 0)
                           | _ => S754_zero false
                           end).
Proof.
  intros total matched. unfold export_results, results_after.
  eexists _, (match_rate matched total). split; [by destruct (py_append _ _)|].
  split; [done|]. split; [done|]. split; [done|].
  assert (0 <= matched <= total) as Hle.
  { unfold matched, total. pose proof (length_filter (fun r => row_matched r = true) rows).
    lia. }
  unfold match_rate. split; [by intros ->|]. split.
  { intros Hpos. replace (0 <? total) with true by (symmetry; apply Z.ltb_lt; lia).
    by eexists. }
  intros Htotal.
  replace (0 <? total) with true by (symmetry; apply Z.ltb_lt; lia).
  destruct (rate_nearest matched total) as (n & Hn & Hnear & Hrate); [lia..|].
  exists n. rewrite Hrate. split; [nia|]. split; [lia|done].
Qed.

(** One matched row of three: the rate is the float nearest to 3333/100. *)
Lemma match_rate_exported_witness :
  let rows := [Row "100" "05" (JStr "PARTY-A") true "MATCH: Rank 3 (Party List 05)";
               Row "101" "09" (JStr "PARTY-B") false "No Match";
               Row "103" "07" (JStr "PARTY-C") false "No Match"] in
  exists fields,
    results_after (export_results "T" rows [] [] (sample_world None) [])
    = Some (Holds (JObj fields))
    /\ assoc "match_rate" fields
       = Some (JFloat (S754_finite false 4690780486883082 (-47))).
Proof.
  intros rows.
  destruct (match_rate_exported "T" rows [] [] (sample_world None) [])
    as (fields & rate & Hresults & _ & _ & Hrate & _ & _ & Hnear).
  destruct Hnear as (n & Hn & Hnear & ->); [simpl; lia|].
  assert (n = 3333) as -> by (simpl in Hnear; lia).
  exists fields. split; [exact Hresults|exact Hrate].
Defined.

(** One matched row of three: 33.33, the float nearest to 3333/100.  One of
    eight hundred: the product is 0.125 and [round] gives 0.12. *)
Example match_rate_one_third :
  match_rate 1 3 = JFloat (S754_finite false 4690780486883082 (-47))
  /\ Float.true_div 3333 100 = S754_finite false 4690780486883082 (-47).
Proof. by vm_compute. Qed.

Example match_rate_tie :
  Float.mul (Float.true_div 1 800) (Float.of_Z 100)
  = S754_finite false 4503599627370496 (-55)
  /\ match_rate 1 800 = JFloat (Float.true_div 12 100).
Proof. by vm_compute. Qed.

(** ** What the scan records *)

Lemma str_drop_length n s : String.length (Str.drop n s) = (String.length s - n)%nat.
Proof.
  revert s. induction n as [|n IH]; intros s; simpl.
  - lia.
  - destruct s; simpl; [done|]. by rewrite IH.
Qed.

Lemma str_last_length n s : String.length (Str.last n s) = (String.length s `min` n)%nat.
Proof. unfold Str.last. rewrite str_drop_length. lia. Qed.

Section ScanFacts.

Context `{Runtime}.

(** The scan of [pl_entry :: rest] goes on with the scan of [rest]. *)
Lemma scan_pl_cons_cong area_code mp_number mp_party pl_entry rest1 rest2 :
  (forall matches st,
     scan_pl area_code mp_number mp_party rest1 matches st
     = scan_pl area_code mp_number mp_party rest2 matches st) ->
  forall matches st,
    scan_pl area_code mp_number mp_party (pl_entry :: rest1) matches st
    = scan_pl area_code mp_number mp_party (pl_entry :: rest2) matches st.
Proof.
  intros Hrest matches st. cbn [scan_pl]. rewrite /mbind /M_bind /lift.
  destruct (py_get pl_entry _ _) as [code|e]; [|done].
  destruct (py_slice_last 2 code) as [last_2|e]; [|done].
  destruct (in_strs last_2 _); [apply Hrest|].
  destruct (eq_str last_2 mp_number); [|apply Hrest].
  destruct (py_get pl_entry "rank" JNull); [|done].
  simpl. apply Hrest.
Qed.

Lemma scan_pl_excluded area_code mp_number mp_party pl_entry rest matches st :
  excluded pl_entry = true ->
  scan_pl area_code mp_number mp_party (pl_entry :: rest) matches st
  = scan_pl area_code mp_number mp_party rest matches st.
Proof.
  intros Hex. destruct pl_entry as [| | | | | |kvs]; try done.
  simpl in Hex.
  destruct (default (JStr "") (assoc "partyCode" kvs)) as [| | | |c| |] eqn:Hcode;
    try done.
  apply (scan_pl_skip _ _ _ kvs c); [done|].
  simpl. rewrite orb_false_r. by rewrite Hex.
Qed.

(** The scan adds records to [all_matches] and nothing else to the state;
    it returns as many new texts as it adds records. *)
Lemma scan_pl_spec area_code mp_number mp_party pl_entries matches st :
  exists o new,
    scan_pl area_code mp_number mp_party pl_entries matches st
    = (o, extend st (only_matches new))
    /\ Forall (recorded area_code mp_number mp_party) new
    /\ forall matches', o = Return matches' ->
         exists texts, matches' = matches ++ texts /\ length texts = length new.
Proof.
  revert matches st.
  induction pl_entries as [|pl_entry rest IH]; intros matches st.
  { exists (Return matches), []. rewrite extend_no_change_r. split; [done|].
    split; [constructor|]. intros ? [= <-]. exists []. by rewrite app_nil_r. }
  assert (Hraise : forall e,
    exists o new, (Raise e : outcome (list string), st)
                  = (o, extend st (only_matches new))
      /\ Forall (recorded area_code mp_number mp_party) new
      /\ forall matches', o = Return matches' ->
           exists texts, matches' = matches ++ texts /\ length texts = length new).
  { intros e. exists (Raise e), []. rewrite extend_no_change_r.
    split; [done|]. split; [constructor|done]. }
  destruct pl_entry as [| | | | | |kvs]; try apply Hraise.
  destruct (default (JStr "") (assoc "partyCode" kvs)) as [| | | |c|l|] eqn:Hcode;
    try (cbn [scan_pl]; rewrite /mbind /M_bind /lift /py_get Hcode /=;
         apply Hraise).
  - destruct (in_strs (JStr (Str.last 2 c)) ["06"; "09"]) eqn:Hin.
    { rewrite (scan_pl_skip _ _ _ kvs c); [apply IH|done|by rewrite Hin]. }
    destruct (String.eqb_spec (Str.last 2 c) mp_number) as [Heq|Hne].
    + rewrite (scan_pl_match _ _ _ kvs c); [|done..].
      destruct (IH (matches ++ [text_of kvs mp_number])
                   (append_match (match_of area_code mp_number mp_party kvs (JStr c)) st))
        as (o & new & -> & Hnew & Htexts).
      exists o, (match_of area_code mp_number mp_party kvs (JStr c) :: new).
      split; [by rewrite append_match_extend extend_assoc|].
      split.
      * constructor; [|done]. repeat split. exists c.
        simpl in Hin. apply orb_false_elim in Hin as [H06 Hin].
        apply orb_false_elim in Hin as [H09 _].
        repeat split; [done|by apply String.eqb_neq..].
      * intros matches' Ho. destruct (Htexts _ Ho) as (texts & -> & Hlen).
        exists (text_of kvs mp_number :: texts).
        split; [by rewrite -app_assoc|]. simpl. by rewrite Hlen.
    + rewrite (scan_pl_skip _ _ _ kvs c); [apply IH|done|].
      rewrite Hin /=. by apply negb_true_iff, String.eqb_neq.
  - cbn [scan_pl]. rewrite /mbind /M_bind /lift /py_get Hcode /=. apply IH.
Qed.

Lemma scan_pl_returns area_code mp_number mp_party pl_entries matches st :
  forallb entry_ok pl_entries = true ->
  exists matches', (scan_pl area_code mp_number mp_party pl_entries matches st).1
                   = Return matches'.
Proof.
  revert matches st.
  induction pl_entries as [|pl_entry rest IH]; intros matches st Hok.
  { by exists matches. }
  simpl in Hok. apply andb_true_iff in Hok as [Hentry Hrest].
  destruct pl_entry as [| | | | | |kvs]; try done. simpl in Hentry.
  assert (exists c, default (JStr "") (assoc "partyCode" kvs) = JStr c)
    as [c Hcode].
  { destruct (assoc "partyCode" kvs) as [[]|]; try done; by eexists. }
  destruct (in_strs (JStr (Str.last 2 c)) ["06"; "09"]) eqn:Hin.
  { rewrite (scan_pl_skip _ _ _ kvs c); [by apply IH|done|by rewrite Hin]. }
  destruct (String.eqb_spec (Str.last 2 c) mp_number) as [Heq|Hne].
  - rewrite (scan_pl_match _ _ _ kvs c); [by apply IH|done..].
  - rewrite (scan_pl_skip _ _ _ kvs c); [by apply IH|done|].
    rewrite Hin /=. by apply negb_true_iff, String.eqb_neq.
Qed.

End ScanFacts.

(** ** What one iteration of the loop adds *)

(** Step 1 gives an MP number exactly for an MP object whose entries are a
    list starting with an object, whose candidate code is a string that
    starts with the prefix and goes on after it. *)
Lemma info_of_Some area_code kvs tkvs rest code :
  assoc "entries" kvs = Some (JArr (JObj tkvs :: rest)) ->
  default (JStr "") (assoc "candidateCode" tkvs) = JStr code ->
  Str.startswith (expected_prefix area_code) code = true ->
  Str.drop (String.length (expected_prefix area_code)) code <> "" ->
  info_of area_code (Holds (JObj kvs))
  = Return (Some (Str.drop (String.length (expected_prefix area_code)) code,
                  default (JStr "Unknown") (assoc "partyCode" tkvs))).
Proof.
  intros Hentries Hcode Hstarts Hrest.
  rewrite /info_of /winning_info /mbind /M_bind /lift. cbn.
  rewrite Hentries. cbn. rewrite Hcode. cbn. rewrite Hstarts.
  by destruct (Str.drop _ code).
Qed.

Lemma info_of_inv area_code mp_file mp_number mp_party :
  info_of area_code mp_file = Return (Some (mp_number, mp_party)) ->
  mp_number <> ""
  /\ exists kvs tkvs rest code,
       mp_file = Holds (JObj kvs)
       /\ assoc "entries" kvs = Some (JArr (JObj tkvs :: rest))
       /\ default (JStr "") (assoc "candidateCode" tkvs) = JStr code
       /\ Str.startswith (expected_prefix area_code) code = true
       /\ mp_number = Str.drop (String.length (expected_prefix area_code)) code
       /\ mp_party = default (JStr "Unknown") (assoc "partyCode" tkvs).
Proof.
  rewrite /info_of /winning_info /mbind /M_bind /lift.
  destruct mp_file as [e|mp_data]; [done|].
  destruct mp_data as [| | | | | |kvs]; try done. cbn.
  destruct (assoc "entries" kvs) as [mp_entries|] eqn:Hentries; [|done]. cbn.
  destruct (truthy mp_entries) eqn:Htruthy; [|done]. cbn.
  destruct mp_entries as [| | | |s|[|top rest]|[|kv more]]; try done.
  { by destruct s. }
  cbn. destruct top as [| | | | | |tkvs]; try done. cbn.
  destruct (default (JStr "") (assoc "candidateCode" tkvs))
    as [| | | |code| |] eqn:Hcode; try done.
  cbn. destruct (Str.startswith _ code) eqn:Hstarts; [|done].
  destruct (Str.drop _ code) as [|c n] eqn:Hdrop; [done|].
  intros [= <- <-]. split; [done|].
  exists kvs, tkvs, rest, code. by rewrite Hdrop.
Qed.

Section AreaFacts.

Context `{Runtime}.

(** The [try] block from the empty state, case by case: what it records
    and whether it raises. *)
Lemma try_block_result area_code mp_file pl_file :
  match info_of area_code mp_file with
  | Return (Some (mp_number, mp_party)) =>
      match entries_of pl_file with
      | Return pl_entries =>
          exists o new,
            scan_pl area_code mp_number mp_party pl_entries [] no_change
            = (o, only_matches new)
            /\ Forall (recorded area_code mp_number mp_party) new
            /\ match o with
               | Return matches =>
                   length matches = length new
                   /\ exists o' lines,
                        try_block area_code mp_file pl_file no_change
                        = (o', {| all_matches := new;
                                  all_rows := [row_of area_code mp_number
                                                 mp_party matches];
                                  console := lines |})
               | Raise e =>
                   try_block area_code mp_file pl_file no_change
                   = (Raise e, only_matches new)
               end
      | Raise e =>
          try_block area_code mp_file pl_file no_change = (Raise e, no_change)
      end
  | Return None =>
      try_block area_code mp_file pl_file no_change = (Return tt, no_change)
  | Raise e =>
      try_block area_code mp_file pl_file no_change = (Raise e, no_change)
  end.
Proof.
  rewrite try_block_unfold.
  destruct (info_of _ _) as [[[mp_number mp_party]|]|e]; [|done|done].
  destruct (entries_of _) as [pl_entries|e]; [|done].
  destruct (scan_pl_spec area_code mp_number mp_party pl_entries [] no_change)
    as (o & new & Hscan & Hnew & Htexts).
  rewrite extend_no_change_l in Hscan.
  exists o, new. rewrite Hscan. split; [done|]. split; [done|].
  destruct o as [matches|e]; [|done].
  destruct (Htexts matches eq_refl) as (texts & -> & Hlen). split; [done|].
  rewrite /output_row /print_row /mbind /M_bind /update /lift /=.
  destruct (formattable mp_party); by eexists _, _.
Qed.

End AreaFacts.

Section LoopFacts.

Context `{Runtime}.

(** An iteration records nothing, or it runs the scan for the MP number of
    step 1 over the entries of step 2: then it adds the records of the scan
    and, when the scan returns, one row. *)
Lemma area_delta_cases mp_dir pl_dir filename :
  let area_code := area_code_of filename in
  let d := area_delta mp_dir pl_dir filename in
  (all_matches d = [] /\ all_rows d = []
   /\ (pl_dir !! filename = None
       \/ (forall np, info_of area_code (open_in mp_dir filename) <> Return (Some np))
       \/ exists pl_file e, pl_dir !! filename = Some pl_file
                            /\ entries_of pl_file = Raise e))
  \/ exists pl_file mp_number mp_party pl_entries,
       pl_dir !! filename = Some pl_file
       /\ info_of area_code (open_in mp_dir filename)
          = Return (Some (mp_number, mp_party))
       /\ entries_of pl_file = Return pl_entries
       /\ Forall (recorded area_code mp_number mp_party) (all_matches d)
       /\ match (scan_pl area_code mp_number mp_party pl_entries [] no_change).1 with
          | Return matches =>
              length matches = length (all_matches d)
              /\ all_rows d = [row_of area_code mp_number mp_party matches]
          | Raise _ => all_rows d = []
          end.
Proof.
  intros area_code d. subst d. unfold area_delta, loop_body. fold area_code.
  destruct (pl_dir !! filename) as [pl_file|] eqn:Hpl; [|left; auto].
  pose proof (try_block_result area_code (open_in mp_dir filename) pl_file) as Hres.
  destruct (info_of _ _) as [[[mp_number mp_party]|]|e] eqn:Hinfo.
  - destruct (entries_of pl_file) as [pl_entries|e] eqn:Hentries.
    + right. exists pl_file, mp_number, mp_party, pl_entries.
      destruct Hres as (o & new & Hscan & Hnew & Ho).
      rewrite Hscan /=. do 3 (split; [done|]).
      destruct o as [matches|e].
      * destruct Ho as (Hlen & o' & lines & ->). by destruct o' as [[]|e].
      * by rewrite Ho.
    + left. rewrite Hres /=. do 2 (split; [done|]). right. right. by eexists _, _.
  - left. rewrite Hres /=. do 2 (split; [done|]). right. left. by intros np.
  - left. rewrite Hres /=. do 2 (split; [done|]). right. left. by intros np.
Qed.

Lemma area_delta_recorded mp_dir pl_dir filename m :
  m ∈ all_matches (area_delta mp_dir pl_dir filename) ->
  exists mp_number mp_party,
    mp_number <> ""
    /\ recorded (area_code_of filename) mp_number mp_party m.
Proof.
  intros Hm.
  destruct (area_delta_cases mp_dir pl_dir filename)
    as [(Hnone & _)|(pl_file & mp_number & mp_party & pl_entries
                     & _ & Hinfo & _ & Hrec & _)].
  - rewrite Hnone in Hm. by apply elem_of_nil in Hm.
  - exists mp_number, mp_party. split.
    + by apply info_of_inv in Hinfo as [? _].
    + by eapply Forall_forall in Hrec.
Qed.

Lemma area_delta_row mp_dir pl_dir filename r :
  r ∈ all_rows (area_delta mp_dir pl_dir filename) ->
  let d := area_delta mp_dir pl_dir filename in
  all_rows d = [r]
  /\ row_area r = area_code_of filename
  /\ row_mp_number r <> ""
  /\ Forall (recorded (area_code_of filename) (row_mp_number r) (row_mp_party r))
       (all_matches d)
  /\ row_matched r = bool_decide (0 < length (all_matches d))%nat
  /\ (all_matches d = [] -> row_status r = "No Match").
Proof.
  intros Hr d. subst d.
  destruct (area_delta_cases mp_dir pl_dir filename)
    as [(_ & Hnone & _)|(pl_file & mp_number & mp_party & pl_entries
                     & _ & Hinfo & _ & Hrec & Hrows)].
  { rewrite Hnone in Hr. by apply elem_of_nil in Hr. }
  destruct (scan_pl _ _ _ _ _ _).1 as [matches|e].
  - destruct Hrows as [Hlen Hrows]. rewrite Hrows in Hr.
    apply list_elem_of_singleton in Hr as ->. rewrite Hrows /=.
    apply info_of_inv in Hinfo as [Hne _].
    rewrite -Hlen. repeat split; try done.
    intros Hnil. rewrite Hnil /= in Hlen. by destruct matches.
  - rewrite Hrows in Hr. by apply elem_of_nil in Hr.
Qed.

(** The loop adds, file after file, what each iteration adds. *)
Lemma main_loop_rows mp_dir pl_dir :
  all_rows (main_loop mp_dir pl_dir)
  = mp_files mp_dir ≫= fun f => all_rows (area_delta mp_dir pl_dir f).
Proof. by rewrite /main_loop foldl_loop_body_rows. Qed.

Lemma main_loop_matches mp_dir pl_dir :
  all_matches (main_loop mp_dir pl_dir)
  = mp_files mp_dir ≫= fun f => all_matches (area_delta mp_dir pl_dir f).
Proof. by rewrite /main_loop foldl_loop_body_matches. Qed.

Lemma main_loop_console mp_dir pl_dir :
  console (main_loop mp_dir pl_dir)
  = [TableHeader; TableRule]
    ++ (mp_files mp_dir ≫= fun f => console (area_delta mp_dir pl_dir f)).
Proof. by rewrite /main_loop foldl_loop_body_console. Qed.

Lemma main_loop_recorded mp_dir pl_dir m :
  m ∈ all_matches (main_loop mp_dir pl_dir) ->
  exists filename mp_number mp_party,
    filename ∈ mp_files mp_dir
    /\ mp_number <> ""
    /\ recorded (area_code_of filename) mp_number mp_party m.
Proof.
  rewrite main_loop_matches. intros (f & Hm & Hf)%list_elem_of_bind.
  apply area_delta_recorded in Hm as (mp_number & mp_party & Hne & Hrec).
  by exists f, mp_number, mp_party.
Qed.

End LoopFacts.

Lemma str_length_nonempty s : s <> "" -> (1 <= String.length s)%nat.
Proof. destruct s; [done|simpl; lia]. Qed.

(** A record ties the MP number to a party code: the number is the last two
    characters of the code, so it has at most two characters, and a number
    of one character is the whole code. *)
Lemma recorded_length area_code mp_number mp_party m :
  recorded area_code mp_number mp_party m ->
  (String.length mp_number <= 2)%nat
  /\ ((String.length mp_number < 2)%nat -> mi_pl_party_code m = JStr mp_number).
Proof.
  intros (_ & _ & _ & c & Hcode & Hlast & _).
  pose proof (str_last_length 2 c) as Hlen. rewrite Hlast in Hlen.
  split; [lia|]. intros Hshort.
  rewrite Hcode -Hlast str_last_short; [done|lia].
Qed.

(** C2: a PL entry whose party code ends in 06 or 09 is never recorded,
    whatever the MP number.  The scan of the entries (the first 7 of the PL
    object) gives the same match list and the same [all_matches] with these
    entries taken out, and no record of [all_matches] has a party code
    ending in 06 or 09. *)
Theorem excluded_codes_never_match `{Runtime} (area_code mp_number : string)
    (mp_party : json) (pl_entries : list json) (matches : list string)
    (st : state) (mp_dir pl_dir : gmap string file) :
  scan_pl area_code mp_number mp_party
    (filter (fun e => excluded e = false) pl_entries) matches st
  = scan_pl area_code mp_number mp_party pl_entries matches st
  /\ forall m, m ∈ all_matches (main_loop mp_dir pl_dir) ->
       exists c, mi_pl_party_code m = JStr c
                 /\ Str.last 2 c <> "06" /\ Str.last 2 c <> "09".
Proof.
  split.
  - revert matches st. induction pl_entries as [|pl_entry rest IH];
      intros matches st; [done|].
    destruct (excluded pl_entry) eqn:Hex.
    + rewrite filter_cons_False; [by rewrite scan_pl_excluded|by rewrite Hex].
    + rewrite filter_cons_True; [by apply scan_pl_cons_cong|done].
  - intros m (f & n & p & _ & _ & Hrec)%main_loop_recorded.
    destruct Hrec as (_ & _ & _ & c & Hcode & _ & H06 & H09). by exists c.
Qed.

(** C3, as the code has it: a recorded match has an MP number of one or
    two characters, and an MP number of one character is matched only by a
    party code that is this character.  So an area whose MP number is
    longer than two characters has no match: its row says so. *)
Theorem mp_number_length_and_matches `{Runtime} (mp_dir pl_dir : gmap string file) :
  (forall m, m ∈ all_matches (main_loop mp_dir pl_dir) ->
     (1 <= String.length (mi_mp_number m) <= 2)%nat
     /\ (String.length (mi_mp_number m) = 1%nat ->
         mi_pl_party_code m = JStr (mi_mp_number m)))
  /\ (forall r, r ∈ all_rows (main_loop mp_dir pl_dir) ->
      (2 < String.length (row_mp_number r))%nat ->
      row_matched r = false /\ row_status r = "No Match").
Proof.
  split.
  - intros m (f & n & p & _ & Hne & Hrec)%main_loop_recorded.
    destruct (recorded_length _ _ _ _ Hrec) as [Hle Hone].
    destruct Hrec as (_ & -> & _).
    split; [split; [by apply str_length_nonempty|done]|].
    intros Hlen. apply Hone. lia.
  - intros r Hr Hlong. rewrite main_loop_rows in Hr.
    apply list_elem_of_bind in Hr as (f & Hr & _).
    apply area_delta_row in Hr as (_ & _ & _ & Hrec & Hmatched & Hstatus).
    destruct (all_matches (area_delta mp_dir pl_dir f)) as [|m new] eqn:Hnew.
    + split; [by rewrite Hmatched|by apply Hstatus].
    + apply Forall_cons in Hrec as [Hrec _].
      apply recorded_length in Hrec as [Hle _]. lia.
Qed.

(** An MP number of length 1 with a match. *)
Lemma short_mp_number_matches :
  String.length "6" <> 2%nat
  /\ all_matches (main_loop (H := basic_runtime) single_mp single_pl)
     = [MatchInfo "100" "6" (JStr "PARTY-A") (JInt 1) (JStr "6")]
  /\ all_rows (main_loop (H := basic_runtime) single_mp single_pl)
     = [Row "100" "6" (JStr "PARTY-A") true "MATCH: Rank 1 (Party List 6)"].
Proof. split; [done|]. split; vm_compute; reflexivity. Qed.

Lemma mp_number_length_and_matches_witness :
  let m := MatchInfo "100" "6" (JStr "PARTY-A") (JInt 1) (JStr "6") in
  (1 <= String.length (mi_mp_number m) <= 2)%nat
  /\ mi_pl_party_code m = JStr (mi_mp_number m).
Proof.
  intros m.
  assert (m ∈ all_matches (main_loop (H := basic_runtime) single_mp single_pl))
    as Hm by (vm_compute; left).
  destruct (proj1 (mp_number_length_and_matches (H := basic_runtime)
                     single_mp single_pl) m Hm) as [Hlen Hcode].
  split; [exact Hlen|exact (Hcode eq_refl)].
Defined.

(** Area 101 of the sample has the MP number 09 and a party list whose
    rank 1 ends in 09: no match.  Area 100 matches at rank 3 only. *)
Lemma excluded_codes_never_match_witness :
  all_rows (main_loop (H := basic_runtime) sample_mp sample_pl)
  = [Row "100" "05" (JStr "PARTY-A") true "MATCH: Rank 3 (Party List 05)";
     Row "101" "09" (JStr "PARTY-B") false "No Match"]
  /\ scan_pl (H := basic_runtime) "101" "09" (JStr "PARTY-B")
       (filter (fun e => excluded e = false) [pl_entry_of "PARTY-0009" 1])
       [] no_change
     = scan_pl (H := basic_runtime) "101" "09" (JStr "PARTY-B")
         [pl_entry_of "PARTY-0009" 1] [] no_change.
Proof.
  split; [vm_compute; reflexivity|].
  exact (proj1 (excluded_codes_never_match (H := basic_runtime) "101" "09"
                  (JStr "PARTY-B") [pl_entry_of "PARTY-0009" 1] [] no_change
                  sample_mp sample_pl)).
Defined.

(** ** Sorting *)

Lemma py_insert_perm {A} (le : A -> A -> bool) x l : py_insert le x l ≡ₚ x :: l.
Proof.
  induction l as [|y l IH]; simpl; [done|].
  destruct (le x y); [done|]. by rewrite IH Permutation_swap.
Qed.

Lemma py_sorted_perm {A} (le : A -> A -> bool) l : py_sorted le l ≡ₚ l.
Proof.
  induction l as [|x l IH]; simpl; [done|].
  by rewrite py_insert_perm IH.
Qed.



Lemma sorted_parties_perm d : sorted_parties d ≡ₚ d.
Proof. apply py_sorted_perm. Qed.



(** The names of the MP directory are all different, also once filtered
    and sorted. *)
Lemma mp_files_NoDup mp_dir : NoDup (mp_files mp_dir).
Proof.
  unfold mp_files. rewrite py_sorted_perm.
  apply NoDup_filter, NoDup_fst_map_to_list.
Qed.

(** ** The row of an area *)

Lemma winner_code_Some mp_dir filename code :
  winner_code mp_dir filename = Some code ->
  exists kvs tkvs rest,
    open_in mp_dir filename = Holds (JObj kvs)
    /\ assoc "entries" kvs = Some (JArr (JObj tkvs :: rest))
    /\ assoc "candidateCode" tkvs = Some (JStr code).
Proof.
  unfold winner_code, open_in.
  destruct (mp_dir !! filename) as [[|[| | | | | |kvs]]|]; try done.
  destruct (assoc "entries" kvs) as [[| | | | |[|[| | | | | |tkvs] rest]|]|]
    eqn:Hentries; try done.
  destruct (assoc "candidateCode" tkvs) as [[| | | |c| |]|] eqn:Hc; try done.
  intros [= ->]. by exists kvs, tkvs, rest.
Qed.

Lemma startswith_prefix_empty area_code :
  Str.startswith (expected_prefix area_code) "" = false.
Proof. done. Qed.

Lemma str_drop_nonempty n s : (n < String.length s)%nat -> Str.drop n s <> "".
Proof.
  intros Hlt Hdrop. pose proof (str_drop_length n s) as Hlen.
  rewrite Hdrop /= in Hlen. lia.
Qed.

Section RowFacts.

Context `{Runtime}.

Lemma pl_readable_entries pl_dir filename :
  pl_readable pl_dir filename = true ->
  exists pl_file pl_entries,
    pl_dir !! filename = Some pl_file
    /\ entries_of pl_file = Return pl_entries
    /\ forallb entry_ok pl_entries = true.
Proof.
  unfold pl_readable.
  destruct (pl_dir !! filename) as [[|[| | | | | |pkvs]]|]; try done.
  destruct (assoc "entries" pkvs) as [[| | | | |l|]|] eqn:Hentries; try done.
  - intros Hok. exists (Holds (JObj pkvs)), (take 7 l).
    by rewrite (entries_of_object pkvs l).
  - intros _. exists (Holds (JObj pkvs)), [].
    by rewrite /entries_of /top_7 /mbind /M_bind /= Hentries.
Qed.

(** Under the preconditions the iteration adds one row, with the area code
    of the file and what follows the prefix as MP number. *)
Lemma row_precondition_row mp_dir pl_dir filename :
  row_precondition mp_dir pl_dir filename = true ->
  exists r code,
    all_rows (area_delta mp_dir pl_dir filename) = [r]
    /\ winner_code mp_dir filename = Some code
    /\ row_area r = area_code_of filename
    /\ row_mp_number r
       = Str.drop (String.length (expected_prefix (area_code_of filename))) code.
Proof.
  unfold row_precondition. intros [Hmp Hpl]%andb_true_iff.
  destruct (winner_code mp_dir filename) as [code|] eqn:Hcode; [|done].
  apply andb_true_iff in Hmp as [Hstarts Hlen%Nat.ltb_lt].
  apply winner_code_Some in Hcode as (kvs & tkvs & rest & Hopen & Hentries & Hcand).
  apply pl_readable_entries in Hpl as (pl_file & pl_entries & Hfile & Hitems & Hok).
  pose proof (info_of_Some (area_code_of filename) kvs tkvs rest code Hentries)
    as Hinfo.
  rewrite Hcand /= in Hinfo.
  specialize (Hinfo eq_refl Hstarts (str_drop_nonempty _ _ Hlen)).
  destruct (area_delta_cases mp_dir pl_dir filename)
    as [(_ & _ & [Hnone|[Hno|(pl_file' & e & Hfile' & Hraise)]])
       |(pl_file' & n & p & items & Hfile' & Hinfo' & Hitems' & _ & Hrows)].
  - by rewrite Hnone in Hfile.
  - rewrite Hopen in Hno. by destruct (Hno _ Hinfo).
  - rewrite Hfile in Hfile'. injection Hfile' as <-. by rewrite Hitems in Hraise.
  - rewrite Hfile in Hfile'. injection Hfile' as <-.
    rewrite Hopen Hinfo in Hinfo'. injection Hinfo' as <- <-.
    rewrite Hitems in Hitems'. injection Hitems' as <-.
    destruct (scan_pl_returns (area_code_of filename)
                (Str.drop (String.length (expected_prefix (area_code_of filename))) code)
                (default (JStr "Unknown") (assoc "partyCode" tkvs))
                pl_entries [] no_change Hok) as [matches Hscan].
    rewrite Hscan in Hrows. destruct Hrows as [_ Hrows].
    by eexists _, code.
Qed.

(** Without the stated preconditions the iteration adds no row and no
    match. *)
Lemma no_precondition_no_row mp_dir pl_dir filename :
  stated_precondition mp_dir pl_dir filename = false ->
  all_rows (area_delta mp_dir pl_dir filename) = []
  /\ all_matches (area_delta mp_dir pl_dir filename) = [].
Proof.
  intros Hpre.
  destruct (area_delta_cases mp_dir pl_dir filename)
    as [(Hmatches & Hrows & _)
       |(pl_file & n & p & items & Hfile & Hinfo & _)]; [done|].
  exfalso. apply info_of_inv in Hinfo
    as (_ & kvs & tkvs & rest & code & Hopen & Hentries & Hcand & Hstarts & _).
  unfold stated_precondition in Hpre.
  rewrite Hfile bool_decide_true /= in Hpre; [|by eexists].
  assert (winner_code mp_dir filename = Some code) as Hcode.
  { unfold winner_code. unfold open_in in Hopen.
    destruct (mp_dir !! filename) as [mp_file|]; [|done].
    simpl in Hopen. rewrite Hopen Hentries.
    destruct (assoc "candidateCode" tkvs) as [v|]; simpl in Hcand.
    - by rewrite Hcand.
    - injection Hcand as <-. by rewrite startswith_prefix_empty in Hstarts. }
  rewrite Hcode in Hpre. by rewrite Hpre in Hstarts.
Qed.

End RowFacts.

Lemma filter_keeps_all {A} (P : A -> Prop) `{forall x, Decision (P x)} (l : list A) :
  Forall P l -> filter P l = l.
Proof.
  induction 1 as [|x l Hx _ IH]; [done|].
  by rewrite filter_cons_True // IH.
Qed.

Lemma filter_keeps_none {A} (P : A -> Prop) `{forall x, Decision (P x)} (l : list A) :
  Forall (fun x => ~ P x) l -> filter P l = [].
Proof.
  induction 1 as [|x l Hx _ IH]; [done|].
  by rewrite filter_cons_False.
Qed.

Lemma rows_of_area_app area_code l1 l2 :
  rows_of_area area_code (l1 ++ l2)
  = rows_of_area area_code l1 ++ rows_of_area area_code l2.
Proof. apply filter_app. Qed.

Section RowsOfArea.

Context `{Runtime}.

Lemma area_delta_rows_area mp_dir pl_dir filename :
  Forall (fun r => row_area r = area_code_of filename)
         (all_rows (area_delta mp_dir pl_dir filename)).
Proof.
  apply Forall_forall. intros r Hr.
  by apply area_delta_row in Hr as (_ & Harea & _).
Qed.

Lemma rows_of_area_same mp_dir pl_dir filename :
  rows_of_area (area_code_of filename)
    (all_rows (area_delta mp_dir pl_dir filename))
  = all_rows (area_delta mp_dir pl_dir filename).
Proof. apply filter_keeps_all, area_delta_rows_area. Qed.

Lemma rows_of_area_other mp_dir pl_dir filename area_code :
  area_code_of filename <> area_code ->
  rows_of_area area_code (all_rows (area_delta mp_dir pl_dir filename)) = [].
Proof.
  intros Hne. apply filter_keeps_none.
  eapply Forall_impl; [apply area_delta_rows_area|].
  simpl. intros r -> . done.
Qed.

Lemma rows_of_area_absent mp_dir pl_dir files area_code :
  (forall g, g ∈ files -> area_code_of g <> area_code) ->
  rows_of_area area_code
    (files ≫= fun g => all_rows (area_delta mp_dir pl_dir g)) = [].
Proof.
  induction files as [|g files IH]; intros Hfiles; [done|].
  rewrite bind_cons rows_of_area_app.
  rewrite (rows_of_area_other _ _ g); [|apply Hfiles; by left].
  apply IH. intros g' Hg'. apply Hfiles. by right.
Qed.

(** When no other file has the area code of [filename], the rows of the
    run with this area code are the rows its iteration adds. *)
Lemma rows_of_area_unique mp_dir pl_dir files filename :
  NoDup files ->
  filename ∈ files ->
  (forall g, g ∈ files -> area_code_of g = area_code_of filename -> g = filename) ->
  rows_of_area (area_code_of filename)
    (files ≫= fun g => all_rows (area_delta mp_dir pl_dir g))
  = all_rows (area_delta mp_dir pl_dir filename).
Proof.
  induction files as [|g files IH]; intros Hnodup Hin Huniq.
  { by apply elem_of_nil in Hin. }
  apply NoDup_cons in Hnodup as [Hg Hnodup].
  rewrite bind_cons rows_of_area_app.
  destruct (decide (g = filename)) as [->|Hne].
  - rewrite (rows_of_area_same _ _ filename).
    rewrite (rows_of_area_absent _ _ files); [by rewrite app_nil_r|].
    intros g' Hg' Harea. apply Hg.
    rewrite -(Huniq g'); [done|by right|done].
  - rewrite (rows_of_area_other _ _ g).
    2:{ intros Harea. apply Hne, Huniq; [by left|done]. }
    apply IH; [done| |].
    + apply elem_of_cons in Hin as [->|Hin]; done.
    + intros g' Hg'. apply Huniq. by right.
Qed.

End RowsOfArea.

(** C1, as the code has it.  Take a file of the MP directory, the only one
    with its area code.  If the file is also in the PL directory, the MP
    object has a non-empty entries list whose first entry has a candidate
    code that starts with the expected prefix and goes on after it, and the
    PL file is read without an exception, the run produces exactly one row
    with this area code; its MP number is what follows the prefix.  If the
    file is not in the PL directory, or the MP entries are not a non-empty
    list, or the candidate code does not start with the prefix, the run
    produces no row with this area code, and the iteration of the file adds
    no match: nothing of the file reaches the summary or the export.  The
    loop itself never raises. *)
Theorem one_row_per_area `{Runtime} (mp_dir pl_dir : gmap string file)
    (filename : string) :
  filename ∈ mp_files mp_dir ->
  (forall g, g ∈ mp_files mp_dir ->
     area_code_of g = area_code_of filename -> g = filename) ->
  (row_precondition mp_dir pl_dir filename = true ->
   exists r code,
     rows_of_area (area_code_of filename) (all_rows (main_loop mp_dir pl_dir)) = [r]
     /\ winner_code mp_dir filename = Some code
     /\ row_mp_number r
        = Str.drop (String.length (expected_prefix (area_code_of filename))) code)
  /\ (stated_precondition mp_dir pl_dir filename = false ->
      rows_of_area (area_code_of filename) (all_rows (main_loop mp_dir pl_dir)) = []
      /\ all_matches (area_delta mp_dir pl_dir filename) = []).
Proof.
  intros Hin Huniq.
  rewrite main_loop_rows
          (rows_of_area_unique _ _ _ _ (mp_files_NoDup mp_dir) Hin Huniq).
  split.
  - intros Hpre.
    destruct (row_precondition_row _ _ _ Hpre) as (r & code & Hrows & Hcode & _ & Hn).
    by exists r, code.
  - apply no_precondition_no_row.
Qed.

(** The file is in both directories, the MP entries are a non-empty list
    and the candidate code starts with the prefix; there is no row. *)
Lemma stated_precondition_without_row :
  mp_files bare_prefix_mp = ["100.json"]
  /\ is_Some (empty_pl !! "100.json")
  /\ winner_code bare_prefix_mp "100.json" = Some "CANDIDATE-MP-100"
  /\ Str.startswith (expected_prefix (area_code_of "100.json")) "CANDIDATE-MP-100"
     = true
  /\ stated_precondition bare_prefix_mp empty_pl "100.json" = true
  /\ all_rows (main_loop (H := basic_runtime) bare_prefix_mp empty_pl) = [].
Proof.
  split; [vm_compute; reflexivity|].
  split; [by eexists|].
  repeat split; vm_compute; reflexivity.
Qed.

(** A PL file that cannot be read: the stated preconditions hold, and
    there is no row but an error line. *)
Example unreadable_pl_file_without_row :
  let pl_dir : gmap string file := {[ "100.json" := Broken (LoadError "Expecting value") ]} in
  stated_precondition single_mp pl_dir "100.json" = true
  /\ all_rows (main_loop (H := basic_runtime) single_mp pl_dir) = []
  /\ console (main_loop (H := basic_runtime) single_mp pl_dir)
     = [TableHeader; TableRule; ErrorLine "100" (LoadError "Expecting value")].
Proof. repeat split; vm_compute; reflexivity. Qed.

(** [replace] takes every [.json] out of a name: two files with one area
    code, and two rows for it. *)
Example two_files_one_area_code :
  let mp_dir : gmap string file :=
    list_to_map [("ab.json", mp_file_of "CANDIDATE-MP-ab01" "PARTY-A");
                 ("a.jsonb.json", mp_file_of "CANDIDATE-MP-ab02" "PARTY-B")] in
  let pl_dir : gmap string file :=
    list_to_map [("ab.json", pl_file_of []); ("a.jsonb.json", pl_file_of [])] in
  area_code_of "a.jsonb.json" = "ab"
  /\ all_rows (main_loop (H := basic_runtime) mp_dir pl_dir)
     = [Row "ab" "02" (JStr "PARTY-B") false "No Match";
        Row "ab" "01" (JStr "PARTY-A") false "No Match"].
Proof. repeat split; vm_compute; reflexivity. Qed.

Lemma sample_mp_files : mp_files sample_mp = ["100.json"; "101.json"; "102.json"].
Proof. vm_compute. reflexivity. Qed.

(** Area 100 of the sample. *)
Lemma one_row_per_area_witness :
  exists r code,
    rows_of_area (area_code_of "100.json")
      (all_rows (main_loop (H := basic_runtime) sample_mp sample_pl)) = [r]
    /\ winner_code sample_mp "100.json" = Some code
    /\ row_mp_number r
       = Str.drop (String.length (expected_prefix (area_code_of "100.json"))) code.
Proof.
  refine (proj1 (one_row_per_area (H := basic_runtime) sample_mp sample_pl
                   "100.json" _ _) _).
  - rewrite sample_mp_files. by left.
  - intros g Hg Harea. rewrite sample_mp_files in Hg.
    repeat (apply elem_of_cons in Hg as [->|Hg]); try done;
      try (vm_compute in Harea; discriminate).
    by apply elem_of_nil in Hg.
  - vm_compute. reflexivity.
Defined.

(** C8: an exception raised in the [try] block of an area is caught: the
    iteration ends with the line "Error processing <area code>: <exception>"
    printed after what the block had done, and the loop goes on.  The rows
    of the run are, file after file, the rows each file gives on its own,
    whatever happens with the other files; and the error line of every file
    whose block raises is on the console at the end of the loop. *)
Theorem errors_are_caught_and_logged `{Runtime} (mp_dir pl_dir : gmap string file) :
  (forall st filename pl_file e st',
     pl_dir !! filename = Some pl_file ->
     try_block (area_code_of filename) (open_in mp_dir filename) pl_file st
     = (Raise e, st') ->
     loop_body mp_dir pl_dir st filename
     = print (ErrorLine (area_code_of filename) e) st')
  /\ (forall st files,
      all_rows (foldl (loop_body mp_dir pl_dir) st files)
      = all_rows st ++ (files ≫= fun g => all_rows (area_delta mp_dir pl_dir g)))
  /\ (forall filename pl_file e d,
      filename ∈ mp_files mp_dir ->
      pl_dir !! filename = Some pl_file ->
      try_block (area_code_of filename) (open_in mp_dir filename) pl_file no_change
      = (Raise e, d) ->
      ErrorLine (area_code_of filename) e ∈ console (main_loop mp_dir pl_dir)).
Proof.
  split; [|split].
  - intros st filename pl_file e st' Hfile Htry.
    by rewrite /loop_body Hfile Htry.
  - apply foldl_loop_body_rows.
  - intros filename pl_file e d Hin Hfile Htry.
    rewrite main_loop_console. apply elem_of_app. right.
    apply list_elem_of_bind. exists filename. split; [|done].
    rewrite /area_delta /loop_body Hfile Htry /=.
    apply elem_of_app. right. by left.
Qed.

(** File 102 of the sample cannot be read: its error is on the console, and
    the rows of areas 100 and 101 are there. *)
Lemma errors_are_caught_and_logged_witness :
  ErrorLine "102" (LoadError "Expecting value")
    ∈ console (main_loop (H := basic_runtime) sample_mp sample_pl)
  /\ row_area <$> all_rows (main_loop (H := basic_runtime) sample_mp sample_pl)
     = ["100"; "101"].
Proof.
  split; [|vm_compute; reflexivity].
  refine (proj2 (proj2 (errors_are_caught_and_logged (H := basic_runtime)
                          sample_mp sample_pl))
            "102.json" (pl_file_of []) (LoadError "Expecting value") no_change _ _ _).
  - rewrite sample_mp_files. by do 2 right; left.
  - vm_compute. reflexivity.
  - vm_compute. reflexivity.
Defined.

(** ** The summary *)

Lemma party_keys_bump k p d :
  key_of p = Some k -> party_keys (bump k p d) = add_key (party_keys d) (Some k).
Proof.
  intros Hp. induction d as [|[q c] d IH].
  { by rewrite /add_key /= Hp. }
  cbn [bump]. case_bool_decide as Hq.
  - unfold add_key. rewrite decide_True //. cbn. rewrite Hq. by left.
  - change (party_keys ((q, c) :: bump k p d))
      with (key_of q :: party_keys (bump k p d)).
    rewrite IH. unfold add_key.
    change (party_keys ((q, c) :: d)) with (key_of q :: party_keys d).
    destruct (decide (Some k ∈ party_keys d)) as [Hin|Hnin].
    + rewrite decide_True //. by right.
    + rewrite decide_False //.
      intros [Heq|Hin]%elem_of_cons; [by apply Hq|by apply Hnin].
Qed.

Lemma dict_count_bump k p d ok :
  key_of p = Some k ->
  dict_count ok (bump k p d) = dict_count ok d + (if decide (Some k = ok) then 1 else 0).
Proof.
  intros Hp. induction d as [|[q c] d IH]; simpl.
  { rewrite Hp. case_decide; lia. }
  case_bool_decide as Hq; simpl.
  - rewrite Hq. case_decide; lia.
  - rewrite IH. repeat case_decide; lia.
Qed.





Lemma bump_parties (P : json -> Prop) k p d :
  P p -> Forall (fun pc : json * Z => P pc.1) d ->
  Forall (fun pc : json * Z => P pc.1) (bump k p d).
Proof.
  intros Hp. induction 1 as [|[q c] d Hq Hd IH]; simpl; [by repeat constructor|].
  case_bool_decide; by constructor.
Qed.

Lemma count_matches_parties (P : json -> Prop) ms d0 d :
  count_matches ms d0 = Return d ->
  Forall (fun m => P (mi_mp_party m)) ms ->
  Forall (fun pc : json * Z => P pc.1) d0 ->
  Forall (fun pc : json * Z => P pc.1) d.
Proof.
  intros Hd Hms. revert d0 Hd. induction Hms as [|m ms Hm _ IH]; intros d0; simpl.
  { by intros [= ->]. }
  unfold count_party. destruct (key_of (mi_mp_party m)) as [k|]; [|done].
  intros Hd Hd0. eapply IH; [done|]. by apply bump_parties.
Qed.




(** The loop over the matches: it returns when every MP party can be a
    key; the keys come in first-seen order, and the count of a key grows by
    one for every match with it. *)
Lemma count_matches_spec ms d0 :
  Forall (fun m => is_Some (key_of (mi_mp_party m))) ms ->
  exists d,
    count_matches ms d0 = Return d
    /\ party_keys d = foldl add_key (party_keys d0) (match_keys ms)
    /\ forall k, dict_count k d = dict_count k d0 + occurrences k ms.
Proof.
  intros Hms. revert d0. induction Hms as [|m ms [k Hk] _ IH]; intros d0.
  { exists d0. repeat split. intros k. unfold occurrences. simpl. lia. }
  destruct (IH (bump k (mi_mp_party m) d0)) as (d & Hd & Hkeys & Hcount).
  exists d. simpl. rewrite /count_party Hk Hd. split; [done|]. split.
  - by rewrite Hkeys party_keys_bump // Hk.
  - intros k'. rewrite Hcount dict_count_bump // /occurrences filter_cons Hk.
    repeat case_decide; simpl; try done; lia.
Qed.

Lemma print_parties_all l out :
  Forall (fun pc : json * Z => formattable pc.1 = true) l ->
  print_parties l out = (out ++ ((fun pc => PartyLine pc.1 pc.2) <$> l), None).
Proof.
  intros Hl. revert out. induction Hl as [|[p c] l Hp _ IH]; intros out; simpl.
  { by rewrite app_nil_r. }
  simpl in Hp. by rewrite Hp IH -app_assoc.
Qed.


Example sample_summary :
  count_matches sample_matches []
  = Return [(JStr "A", 1); (JStr "B", 2); (JStr "C", 2)]
  /\ sorted_parties [(JStr "A", 1); (JStr "B", 2); (JStr "C", 2)]
     = [(JStr "B", 2); (JStr "C", 2); (JStr "A", 1)].
Proof. by vm_compute. Qed.

(** Two matches in one area count twice for the MP's party, and once for
    [matched_areas]. *)
Example two_matches_one_area :
  let mp_dir : gmap string file :=
    {[ "100.json" := mp_file_of "CANDIDATE-MP-10005" "PARTY-A" ]} in
  let pl_dir : gmap string file :=
    {[ "100.json" := pl_file_of [pl_entry_of "PARTY-0005" 1;
                                 pl_entry_of "PARTY-0105" 2] ]} in
  let st := main_loop (H := basic_runtime) mp_dir pl_dir in
  count_matches (all_matches st) [] = Return [(JStr "PARTY-A", 2)]
  /\ matched_areas (all_rows st) = 1
  /\ row_status <$> all_rows st
     = ["MATCH: Rank 1 (Party List 05), Rank 2 (Party List 05)"].
Proof. repeat split; vm_compute; reflexivity. Qed.


(** A list or a dict as MP party cannot be counted, and [None] cannot be
    printed in the summary table: with a match for such a party the call
    ends with an exception after the loop, before any export. *)
Example unhashable_party_ends_the_run :
  let mp_dir : gmap string file :=
    {[ "100.json" :=
         Holds (JObj [("entries",
                       JArr [JObj [("candidateCode", JStr "CANDIDATE-MP-10005");
                                   ("partyCode", JArr [])]])]) ]} in
  let pl_dir : gmap string file :=
    {[ "100.json" := pl_file_of [pl_entry_of "PARTY-0005" 1] ]} in
  let w := {| data_mp := Some mp_dir; data_pl := Some pl_dir; docs_data := None |} in
  uncaught (compare_mp_and_pl (H := basic_runtime) true "T" w)
  = Some (Unhashable TList)
  /\ final_world (compare_mp_and_pl (H := basic_runtime) true "T" w) = w.
Proof. split; vm_compute; reflexivity. Qed.

(** The run over the sample, with export into an empty [docs/data]. *)
Example sample_run :
  let r := compare_mp_and_pl (H := basic_runtime) true "T" (sample_world None) in
  output r
  = [TableHeader; TableRule;
     RowLine "100" "05" (JStr "PARTY-A") "MATCH: Rank 3 (Party List 05)";
     RowLine "101" "09" (JStr "PARTY-B") "No Match";
     ErrorLine "102" (LoadError "Expecting value");
     SummaryBanner; SummaryHeader; SummaryRule; PartyLine (JStr "PARTY-A") 1;
     SummaryEnd; ExportedLine; HistoryLine]
  /\ uncaught r = None
  /\ history_after r
     = Some (Holds (JArr [JObj [("timestamp", JStr "T");
                                ("total_areas", JInt 2);
                                ("matched_areas", JInt 1);
                                ("match_rate", JFloat (Float.of_Z 50));
                                ("summary_by_party",
                                 JArr [JObj [("party_code", JStr "PARTY-A");
                                             ("match_count", JInt 1)]])]])).
Proof. repeat split; vm_compute; reflexivity. Qed.


(** ** File names and candidate codes *)

Lemma prefix_app p s : String.prefix p (p +:+ s) = true.
Proof.
  induction p as [|c p IH]; simpl; [by destruct s|].
  by destruct (ascii_dec c c).
Qed.

Lemma str_drop_app p s : Str.drop (String.length p) (p +:+ s) = s.
Proof. induction p as [|c p IH]; simpl; [by destruct s|done]. Qed.

Lemma str_length_app p s :
  String.length (p +:+ s) = (String.length p + String.length s)%nat.
Proof. induction p as [|c p IH]; simpl; [done|by rewrite IH]. Qed.

Lemma replace_json_suffix a :
  no_dot a = true -> Str.replace ".json" "" (a +:+ ".json") = a.
Proof.
  unfold Str.replace. induction a as [|c a IH]; [done|].
  intros [Hc Ha]%andb_true_iff. apply negb_true_iff, Ascii.eqb_neq in Hc.
  change (String c a +:+ ".json") with (String c (a +:+ ".json")).
  cbn [Str.replace_from String.prefix].
  destruct (ascii_dec "." c) as [Heq|_]; [by destruct Hc|].
  by rewrite IH.
Qed.

(** X1: a file named [<area>.json], where the area code has no dot, passes
    the [.json] filter and gives back the area code; the expected prefix of
    its candidate codes is then [CANDIDATE-MP-<area>]. *)
Theorem file_name_gives_area_code (a : string) :
  no_dot a = true ->
  Str.endswith ".json" (a +:+ ".json") = true
  /\ area_code_of (a +:+ ".json") = a
  /\ expected_prefix (area_code_of (a +:+ ".json")) = "CANDIDATE-MP-" +:+ a.
Proof.
  intros Ha. assert (area_code_of (a +:+ ".json") = a) as Harea
    by by apply replace_json_suffix.
  split; [|by rewrite Harea].
  rewrite /Str.endswith /Str.last str_length_app /=.
  replace (String.length a + 5 - 5)%nat with (String.length a) by lia.
  by rewrite str_drop_app.
Qed.

Lemma file_name_gives_area_code_witness :
  Str.endswith ".json" ("100" +:+ ".json") = true
  /\ area_code_of ("100" +:+ ".json") = "100"
  /\ expected_prefix (area_code_of ("100" +:+ ".json")) = "CANDIDATE-MP-" +:+ "100".
Proof. exact (file_name_gives_area_code "100" eq_refl). Defined.

(** X2: the MP number is the candidate code without the prefix, character
    for character (leading zeros stay).  A candidate code made of the
    prefix and a non-empty [n] gives the MP number [n]; the bare prefix,
    and a string that does not start with the prefix, give no MP number. *)
Theorem mp_number_is_the_suffix (area_code n : string) (kvs tkvs : list (string * json))
    (rest : list json) :
  assoc "entries" kvs = Some (JArr (JObj tkvs :: rest)) ->
  (assoc "candidateCode" tkvs = Some (JStr (expected_prefix area_code +:+ n)) ->
   info_of area_code (Holds (JObj kvs))
   = Return (if String.eqb n "" then None
             else Some (n, default (JStr "Unknown") (assoc "partyCode" tkvs))))
  /\ (forall code,
       assoc "candidateCode" tkvs = Some (JStr code) ->
       Str.startswith (expected_prefix area_code) code = false ->
       info_of area_code (Holds (JObj kvs)) = Return None).
Proof.
  intros Hentries. split.
  - intros Hcode.
    rewrite /info_of /winning_info /mbind /M_bind /lift. cbn.
    rewrite Hentries. cbn. rewrite Hcode. cbn.
    rewrite /Str.startswith prefix_app str_drop_app.
    by destruct n.
  - intros code Hcode Hstarts.
    rewrite /info_of /winning_info /mbind /M_bind /lift. cbn.
    rewrite Hentries. cbn. rewrite Hcode. cbn. by rewrite Hstarts.
Qed.

Lemma mp_number_is_the_suffix_witness :
  info_of "100" (mp_file_of "CANDIDATE-MP-10005" "PARTY-A")
  = Return (Some ("05", JStr "PARTY-A")).
Proof.
  exact (proj1 (mp_number_is_the_suffix "100" "05"
                  [("entries",
                    JArr [JObj [("candidateCode", JStr "CANDIDATE-MP-10005");
                                ("partyCode", JStr "PARTY-A")]])]
                  [("candidateCode", JStr "CANDIDATE-MP-10005");
                   ("partyCode", JStr "PARTY-A")] [] eq_refl) eq_refl).
Defined.

(** ** A well-formed area *)

Section WellFormed.

Context `{Runtime}.

Lemma excluded_in_strs kvs c :
  default (JStr "") (assoc "partyCode" kvs) = JStr c ->
  in_strs (JStr (Str.last 2 c)) ["06"; "09"] = excluded (JObj kvs).
Proof. intros Hcode. by rewrite /excluded Hcode /= orb_false_r. Qed.

Lemma entry_ok_code pl_entry :
  entry_ok pl_entry = true ->
  exists kvs c, pl_entry = JObj kvs
                /\ default (JStr "") (assoc "partyCode" kvs) = JStr c.
Proof.
  destruct pl_entry as [| | | | | |kvs]; try done. simpl.
  destruct (assoc "partyCode" kvs) as [[| | | |c| |]|] eqn:Hcode; try done;
    intros _; eexists kvs, _; by rewrite Hcode.
Qed.

(** Over entries that are objects with a string party code, the scan is a
    filter: it adds, in the order of the entries, the record and the text
    of each matching entry. *)
Lemma scan_pl_filter area_code mp_number mp_party pl_entries matches st :
  forallb entry_ok pl_entries = true ->
  let found := omap (match_of_entry area_code mp_number mp_party) pl_entries in
  scan_pl area_code mp_number mp_party pl_entries matches st
  = (Return (matches ++ found.*2), extend st (only_matches found.*1)).
Proof.
  revert matches st.
  induction pl_entries as [|pl_entry rest IH]; intros matches st Hok found.
  { subst found. by rewrite /= app_nil_r extend_no_change_r. }
  simpl in Hok. apply andb_true_iff in Hok as [Hentry Hrest].
  destruct (entry_ok_code _ Hentry) as (kvs & c & -> & Hcode).
  pose proof (excluded_in_strs kvs c Hcode) as Hin.
  assert (match_of_entry area_code mp_number mp_party (JObj kvs)
          = if negb (excluded (JObj kvs)) && String.eqb (Str.last 2 c) mp_number
            then Some (match_of area_code mp_number mp_party kvs (JStr c),
                       text_of kvs mp_number)
            else None) as Hfound by by rewrite /match_of_entry Hcode.
  subst found. cbn [omap list_omap]. rewrite Hfound.
  destruct (excluded (JObj kvs)) eqn:Hex; cbn [negb andb].
  - rewrite (scan_pl_skip _ _ _ kvs c); [by apply IH|done|by rewrite Hin].
  - destruct (String.eqb_spec (Str.last 2 c) mp_number) as [Heq|Hne].
    + rewrite (scan_pl_match _ _ _ kvs c); [|done..].
      rewrite IH //= append_match_extend extend_assoc -app_assoc. done.
    + rewrite (scan_pl_skip _ _ _ kvs c); [by apply IH|done|].
      rewrite Hin /=. by apply negb_true_iff, String.eqb_neq.
Qed.

End WellFormed.

(** X3: one iteration of the loop over well-formed files.  The MP object
    has a first entry whose candidate code is the prefix followed by a
    non-empty [n] and whose party can be printed; the PL object has a list
    of entries, the first 7 being objects with a string party code.  Then
    the iteration records exactly the matching entries among the first 7,
    in their order, appends one row with the area code, [n], the party, the
    flag "some entry matched" and the status built from the texts, prints
    this row and nothing else, and raises nothing. *)
Theorem well_formed_area `{Runtime} (mp_dir pl_dir : gmap string file)
    (filename n : string) (kvs tkvs pkvs : list (string * json))
    (rest l : list json) :
  let area_code := area_code_of filename in
  let party := default (JStr "Unknown") (assoc "partyCode" tkvs) in
  let found := omap (match_of_entry area_code n party) (take 7 l) in
  mp_dir !! filename = Some (Holds (JObj kvs)) ->
  assoc "entries" kvs = Some (JArr (JObj tkvs :: rest)) ->
  assoc "candidateCode" tkvs = Some (JStr (expected_prefix area_code +:+ n)) ->
  n <> "" ->
  formattable party = true ->
  pl_dir !! filename = Some (Holds (JObj pkvs)) ->
  assoc "entries" pkvs = Some (JArr l) ->
  forallb entry_ok (take 7 l) = true ->
  area_delta mp_dir pl_dir filename
  = {| all_matches := found.*1;
       all_rows := [row_of area_code n party found.*2];
       console := [RowLine area_code n party (status_of found.*2)] |}.
Proof.
  intros area_code party found Hmp Hentries Hcode Hn Hfmt Hpl Hl Hok.
  rewrite /area_delta /loop_body Hpl try_block_unfold /open_in Hmp /=.
  fold area_code.
  pose proof (info_of_Some area_code kvs tkvs rest
                (expected_prefix area_code +:+ n) Hentries) as Hinfo.
  rewrite Hcode /= /Str.startswith prefix_app str_drop_app in Hinfo.
  rewrite (Hinfo eq_refl eq_refl Hn) (entries_of_object pkvs l Hl).
  rewrite scan_pl_filter // extend_no_change_l.
  fold party found.
  by rewrite /output_row /print_row /mbind /M_bind /update /lift /= Hfmt.
Qed.

(** Area 100 of the sample: the entry of rank 3 matches, the one of rank 8
    is not among the first 7. *)
Lemma well_formed_area_witness :
  area_delta (H := basic_runtime) sample_mp sample_pl "100.json"
  = {| all_matches :=
         [MatchInfo "100" "05" (JStr "PARTY-A") (JInt 3) (JStr "PARTY-0005")];
       all_rows :=
         [Row "100" "05" (JStr "PARTY-A") true "MATCH: Rank 3 (Party List 05)"];
       console :=
         [RowLine "100" "05" (JStr "PARTY-A") "MATCH: Rank 3 (Party List 05)"] |}.
Proof.
  refine (well_formed_area (H := basic_runtime) sample_mp sample_pl
            "100.json" "05"
            [("entries", JArr [JObj [("candidateCode", JStr "CANDIDATE-MP-10005");
                                     ("partyCode", JStr "PARTY-A")]])]
            [("candidateCode", JStr "CANDIDATE-MP-10005");
             ("partyCode", JStr "PARTY-A")]
            [("entries", JArr sample_pl_100)] [] sample_pl_100
            _ _ _ _ _ _ _ _); try (vm_compute; reflexivity).
  discriminate.
Defined.

(** ** The order of the files and of the rows *)

Lemma leb_le x y : String.leb x y = true <-> String.le x y.
Proof. unfold String.le. by rewrite Is_true_true. Qed.

Lemma py_insert_sorted_le x l :
  StronglySorted String.le l ->
  StronglySorted String.le (py_insert String.leb x l).
Proof.
  induction 1 as [|y l Hl IH Hy]; simpl.
  { by repeat constructor. }
  destruct (String.leb x y) eqn:Hxy.
  - apply leb_le in Hxy. constructor; [by constructor|].
    constructor; [done|].
    eapply Forall_impl; [exact Hy|]. simpl. intros z Hz. by etrans.
  - assert (String.le y x) as Hyx.
    { destruct (total String.le x y) as [Hle|Hle]; [|done].
      apply leb_le in Hle. congruence. }
    constructor; [done|]. rewrite py_insert_perm. by constructor.
Qed.

(** X4: the files the loop runs over are the names of the MP directory
    that end in [.json], each once, in ascending order (character codes,
    as [sorted] compares strings). *)
Theorem mp_files_sorted (mp_dir : gmap string file) :
  StronglySorted String.le (mp_files mp_dir)
  /\ NoDup (mp_files mp_dir)
  /\ forall f, f ∈ mp_files mp_dir
               <-> is_Some (mp_dir !! f) /\ Str.endswith ".json" f = true.
Proof.
  split; [|split; [apply mp_files_NoDup|]].
  - unfold mp_files, py_sorted.
    induction (filter _ (listdir mp_dir)) as [|x l IH]; simpl; [constructor|].
    by apply py_insert_sorted_le.
  - intros f. rewrite /mp_files py_sorted_perm list_elem_of_filter /listdir.
    rewrite list_elem_of_fmap. split.
    + intros [Hjson ([g v] & -> & Hin)]. split; [|done].
      apply elem_of_map_to_list in Hin. by exists v.
    + intros [[v Hv] Hjson]. split; [done|].
      exists (f, v). split; [done|]. by apply elem_of_map_to_list.
Qed.

Section RowOrder.

Context `{Runtime}.

Lemma area_delta_at_most_one_row mp_dir pl_dir filename :
  all_rows (area_delta mp_dir pl_dir filename) = []
  \/ exists r, all_rows (area_delta mp_dir pl_dir filename) = [r]
               /\ row_area r = area_code_of filename.
Proof.
  destruct (all_rows (area_delta mp_dir pl_dir filename)) as [|r rows] eqn:Hrows;
    [by left|right].
  assert (r ∈ all_rows (area_delta mp_dir pl_dir filename)) as Hr
    by (rewrite Hrows; by left).
  apply area_delta_row in Hr as (Hone & Harea & _).
  rewrite Hrows in Hone. injection Hone as ->. by exists r.
Qed.

End RowOrder.

(** X5: a file gives at most one row, and the rows come in the order of
    the files: the area codes of the rows are a sublist of the area codes
    of the sorted files. *)
Theorem rows_follow_the_files `{Runtime} (mp_dir pl_dir : gmap string file) :
  row_area <$> all_rows (main_loop mp_dir pl_dir)
    `sublist_of` area_code_of <$> mp_files mp_dir.
Proof.
  rewrite main_loop_rows.
  induction (mp_files mp_dir) as [|f files IH]; [done|].
  rewrite bind_cons fmap_app fmap_cons.
  destruct (area_delta_at_most_one_row mp_dir pl_dir f) as [->|(r & -> & Harea)].
  - by apply sublist_cons.
  - simpl. rewrite Harea. by apply sublist_skip.
Qed.

(** ** Rows, matches and the console agree *)

Lemma status_of_no_match matches : status_of matches = "No Match" <-> matches = [].
Proof. by destruct matches. Qed.

Section Agreement.

Context `{Runtime}.

(** What an iteration prints: nothing or an error when it adds no row;
    with a row, the line of the row, or the error of a party that cannot be
    printed. *)
Lemma area_delta_console mp_dir pl_dir filename :
  let d := area_delta mp_dir pl_dir filename in
  match all_rows d with
  | [] => console d = [] \/ exists e, console d = [ErrorLine (area_code_of filename) e]
  | r :: _ =>
      console d
      = [if formattable (row_mp_party r)
         then RowLine (row_area r) (row_mp_number r) (row_mp_party r) (row_status r)
         else ErrorLine (area_code_of filename) (FormatError (type_of (row_mp_party r)))]
  end.
Proof.
  intros d. subst d. unfold area_delta, loop_body.
  destruct (pl_dir !! filename) as [pl_file|]; [|by left].
  rewrite try_block_unfold.
  destruct (info_of _ _) as [[[mp_number mp_party]|]|e]; [|by left|right; by eexists].
  destruct (entries_of _) as [pl_entries|e]; [|right; by eexists].
  destruct (scan_pl_spec (area_code_of filename) mp_number mp_party pl_entries []
              no_change) as (o & new & -> & _ & _).
  rewrite extend_no_change_l.
  destruct o as [matches|e]; [|right; by eexists].
  rewrite /output_row /print_row /mbind /M_bind /update /lift /=.
  destruct (formattable mp_party) eqn:Hfmt; simpl; by rewrite Hfmt.
Qed.

(** The flag of a row says whether its status is a match; a row with the
    flag has a record. *)
Lemma area_delta_row_flag mp_dir pl_dir filename r :
  r ∈ all_rows (area_delta mp_dir pl_dir filename) ->
  row_mp_number r <> ""
  /\ (row_matched r = true <-> row_status r <> "No Match")
  /\ (row_matched r = true ->
      exists m, m ∈ all_matches (area_delta mp_dir pl_dir filename)
                /\ mi_area m = row_area r
                /\ mi_mp_number m = row_mp_number r
                /\ mi_mp_party m = row_mp_party r).
Proof.
  intros Hr.
  destruct (area_delta_cases mp_dir pl_dir filename)
    as [(_ & Hnone & _)|(pl_file & n & p & items & _ & Hinfo & _ & Hrec & Hrows)].
  { rewrite Hnone in Hr. by apply elem_of_nil in Hr. }
  destruct (scan_pl _ _ _ _ _ _).1 as [matches|e];
    [|rewrite Hrows in Hr; by apply elem_of_nil in Hr].
  destruct Hrows as [Hlen Hrows]. rewrite Hrows in Hr.
  apply list_elem_of_singleton in Hr as ->. simpl.
  split; [by apply info_of_inv in Hinfo as [? _]|].
  split.
  - rewrite status_of_no_match bool_decide_eq_true.
    destruct matches; simpl; [split; [lia|done]|split; [done|lia]].
  - rewrite bool_decide_eq_true Hlen. intros Hpos.
    destruct (all_matches (area_delta mp_dir pl_dir filename)) as [|m new] eqn:Hnew;
      [simpl in Hpos; lia|].
    apply Forall_cons in Hrec as [(Harea & Hn & Hp & _) _].
    exists m. split; [by left|done].
Qed.

End Agreement.

(** X6: every row of the run has a non-empty MP number; its flag
    [matched] is true exactly when its status is not "No Match"; and a
    matched row has a record in [all_matches] with its area code, MP number
    and party. *)
Theorem rows_agree_with_matches `{Runtime} (mp_dir pl_dir : gmap string file)
    (r : row) :
  r ∈ all_rows (main_loop mp_dir pl_dir) ->
  row_mp_number r <> ""
  /\ (row_matched r = true <-> row_status r <> "No Match")
  /\ (row_matched r = true ->
      exists m, m ∈ all_matches (main_loop mp_dir pl_dir)
                /\ mi_area m = row_area r
                /\ mi_mp_number m = row_mp_number r
                /\ mi_mp_party m = row_mp_party r).
Proof.
  rewrite main_loop_rows main_loop_matches.
  intros (f & Hr & Hf)%list_elem_of_bind.
  destruct (area_delta_row_flag _ _ _ _ Hr) as (Hn & Hflag & Hrec).
  do 2 (split; [done|]). intros Hmatched.
  destruct (Hrec Hmatched) as (m & Hm & Hfields).
  exists m. split; [|done]. apply list_elem_of_bind. by exists f.
Qed.

Lemma rows_agree_with_matches_witness :
  let r := Row "100" "05" (JStr "PARTY-A") true "MATCH: Rank 3 (Party List 05)" in
  row_matched r = true <-> row_status r <> "No Match".
Proof.
  intros r.
  assert (r ∈ all_rows (main_loop (H := basic_runtime) sample_mp sample_pl))
    as Hr by (vm_compute; left).
  exact (proj1 (proj2 (rows_agree_with_matches (H := basic_runtime)
                         sample_mp sample_pl r Hr))).
Defined.

(** X7: the console follows the rows.  A row line on the console is the
    line of a row of [all_rows]; a row whose party can be printed has its
    line on the console, and a row whose party cannot be printed has an
    error line instead; and a file prints at most one line. *)
Theorem console_agrees_with_rows `{Runtime} (mp_dir pl_dir : gmap string file) :
  (forall a n p s,
     RowLine a n p s ∈ console (main_loop mp_dir pl_dir) ->
     exists r, r ∈ all_rows (main_loop mp_dir pl_dir)
               /\ row_area r = a /\ row_mp_number r = n
               /\ row_mp_party r = p /\ row_status r = s)
  /\ (forall r,
      r ∈ all_rows (main_loop mp_dir pl_dir) ->
      (if formattable (row_mp_party r)
       then RowLine (row_area r) (row_mp_number r) (row_mp_party r) (row_status r)
       else ErrorLine (row_area r) (FormatError (type_of (row_mp_party r))))
      ∈ console (main_loop mp_dir pl_dir))
  /\ (length (console (main_loop mp_dir pl_dir)) <= 2 + length (mp_files mp_dir))%nat.
Proof.
  rewrite main_loop_console main_loop_rows. split; [|split].
  - intros a n p s [Hin|Hin]%elem_of_app.
    { repeat (apply elem_of_cons in Hin as [Hin|Hin]; [done|]).
      by apply elem_of_nil in Hin. }
    apply list_elem_of_bind in Hin as (f & Hin & Hf).
    pose proof (area_delta_console mp_dir pl_dir f) as Hconsole. simpl in Hconsole.
    destruct (all_rows (area_delta mp_dir pl_dir f)) as [|r rows] eqn:Hrows.
    { destruct Hconsole as [Hc|[e Hc]]; rewrite Hc in Hin.
      - by apply elem_of_nil in Hin.
      - by apply list_elem_of_singleton in Hin. }
    rewrite Hconsole in Hin. apply list_elem_of_singleton in Hin.
    destruct (formattable (row_mp_party r)); [|done].
    injection Hin as -> -> -> ->.
    exists r. split; [|done].
    apply list_elem_of_bind. exists f. split; [|done]. rewrite Hrows. by left.
  - intros r (f & Hr & Hf)%list_elem_of_bind.
    apply elem_of_app. right. apply list_elem_of_bind. exists f. split; [|done].
    pose proof (area_delta_console mp_dir pl_dir f) as Hconsole. simpl in Hconsole.
    apply area_delta_row in Hr as (Hone & Harea & _).
    rewrite Hone in Hconsole. rewrite Hconsole Harea. by left.
  - rewrite length_app /=. do 2 apply le_n_S.
    induction (mp_files mp_dir) as [|f files IH]; [done|].
    rewrite bind_cons length_app /=.
    pose proof (area_delta_console mp_dir pl_dir f) as Hconsole. simpl in Hconsole.
    destruct (all_rows (area_delta mp_dir pl_dir f)).
    + destruct Hconsole as [->|[e ->]]; simpl; lia.
    + rewrite Hconsole /=. lia.
Qed.

(** ** The total of the summary *)

Lemma sum_counts_bump k p d : sum_counts (bump k p d) = sum_counts d + 1.
Proof.
  induction d as [|[q c] d IH]; simpl; [done|].
  case_bool_decide; simpl; lia.
Qed.

Lemma bump_counts_positive k p d :
  Forall (fun pc : json * Z => 1 <= pc.2) d ->
  Forall (fun pc : json * Z => 1 <= pc.2) (bump k p d).
Proof.
  induction 1 as [|[q c] d Hq Hd IH]; simpl; [by repeat constructor|].
  case_bool_decide; constructor; simpl in *; try done; lia.
Qed.

Lemma count_matches_total ms d0 d :
  count_matches ms d0 = Return d ->
  sum_counts d = sum_counts d0 + Z.of_nat (length ms)
  /\ (Forall (fun pc : json * Z => 1 <= pc.2) d0 ->
      Forall (fun pc : json * Z => 1 <= pc.2) d).
Proof.
  revert d0. induction ms as [|m ms IH]; intros d0; simpl.
  { intros [= ->]. split; [lia|done]. }
  unfold count_party. destruct (key_of (mi_mp_party m)) as [k|]; [|done].
  intros Hd. apply IH in Hd as [Hsum Hpos]. split.
  - rewrite Hsum sum_counts_bump. lia.
  - intros Hd0. by apply Hpos, bump_counts_positive.
Qed.

Lemma sum_counts_perm d1 d2 : d1 ≡ₚ d2 -> sum_counts d1 = sum_counts d2.
Proof. induction 1; simpl; lia. Qed.

Lemma sum_counts_lower d :
  Forall (fun pc : json * Z => 1 <= pc.2) d -> Z.of_nat (length d) <= sum_counts d.
Proof. induction 1 as [|pc d Hpc _ IH]; simpl; lia. Qed.

(** X8: when the counting loop returns, the counts of the summary add up
    to the number of matches, every party of the summary has a count of at
    least 1, and there are at most as many parties as matches. *)
Theorem summary_counts_add_up (ms : list match_info) (party_counts : list (json * Z)) :
  count_matches ms [] = Return party_counts ->
  sum_counts (sorted_parties party_counts) = Z.of_nat (length ms)
  /\ Forall (fun pc : json * Z => 1 <= pc.2) (sorted_parties party_counts)
  /\ (length (sorted_parties party_counts) <= length ms)%nat.
Proof.
  intros Hd. apply count_matches_total in Hd as [Hsum Hpos].
  specialize (Hpos (Forall_nil_2 _)).
  assert (sum_counts (sorted_parties party_counts) = Z.of_nat (length ms)) as Htotal
    by (rewrite (sum_counts_perm _ _ (sorted_parties_perm _)) Hsum /=; lia).
  assert (Forall (fun pc : json * Z => 1 <= pc.2) (sorted_parties party_counts))
    as Hsorted by by rewrite sorted_parties_perm.
  do 2 (split; [done|]).
  apply sum_counts_lower in Hsorted. lia.
Qed.

Lemma summary_counts_add_up_witness :
  sum_counts (sorted_parties [(JStr "A", 1); (JStr "B", 2); (JStr "C", 2)])
  = Z.of_nat (length sample_matches).
Proof.
  exact (proj1 (summary_counts_add_up sample_matches
                  [(JStr "A", 1); (JStr "B", 2); (JStr "C", 2)] eq_refl)).
Defined.

(** ** What ends the run after the loop *)

Lemma count_matches_unhashable ms d m :
  m ∈ ms -> key_of (mi_mp_party m) = None ->
  exists t, count_matches ms d = Raise (Unhashable t).
Proof.
  intros Hm Hkey. revert d. induction ms as [|m' ms IH]; intros d.
  { by apply elem_of_nil in Hm. }
  simpl. unfold count_party.
  destruct (key_of (mi_mp_party m')) as [k|] eqn:Hk; [|by eexists].
  apply elem_of_cons in Hm as [->|Hm]; [congruence|]. by apply IH.
Qed.

(** X9: a recorded match whose MP party is a list or a dict cannot be
    counted: the call ends with the exception "unhashable type" right after
    the summary banner, and nothing is written, with or without the export
    flag. *)
Theorem unhashable_party_stops_the_run `{Runtime} (export_json : bool)
    (timestamp : string) (w : world) (mp_dir pl_dir : gmap string file)
    (m : match_info) :
  data_mp w = Some mp_dir ->
  data_pl w = Some pl_dir ->
  m ∈ all_matches (main_loop mp_dir pl_dir) ->
  key_of (mi_mp_party m) = None ->
  let r := compare_mp_and_pl export_json timestamp w in
  (exists t, uncaught r = Some (Unhashable t))
  /\ final_world r = w
  /\ output r = console (main_loop mp_dir pl_dir) ++ [SummaryBanner].
Proof.
  intros Hmp Hpl Hm Hkey r. subst r. rewrite /compare_mp_and_pl Hmp Hpl.
  destruct (count_matches_unhashable _ [] m Hm Hkey) as [t Hcount].
  destruct (all_matches (main_loop mp_dir pl_dir)) as [|m' ms] eqn:Hms.
  { by apply elem_of_nil in Hm. }
  rewrite Hcount /=. split; [by exists t|done].
Qed.

Lemma unhashable_party_stops_the_run_witness :
  let w := {| data_mp := Some list_party_mp; data_pl := Some matching_pl;
              docs_data := None |} in
  let r := compare_mp_and_pl (H := basic_runtime) true "T" w in
  (exists t, uncaught r = Some (Unhashable t))
  /\ final_world r = w
  /\ output r
     = console (main_loop (H := basic_runtime) list_party_mp matching_pl)
       ++ [SummaryBanner].
Proof.
  intros w.
  refine (unhashable_party_stops_the_run (H := basic_runtime) true "T" w
            list_party_mp matching_pl
            (MatchInfo "100" "05" (JArr []) (JInt 1) (JStr "PARTY-0005"))
            eq_refl eq_refl _ eq_refl).
  vm_compute. left.
Defined.

Lemma history_not_a_list_witness :
  let w := sample_world (Some (Holds (JObj []))) in
  let r := export_results "T" [] [] [] w [] in
  uncaught r = Some (AttributeError TDict "append")
  /\ history_after r = Some (Holds (JObj []))
  /\ results_after r = Some (Holds (results_json_of "T" [] [] (sorted_parties []))).
Proof.
  intros w.
  refine (history_not_a_list "T" [] [] [] w [] (JObj []) eq_refl _).
  discriminate.
Defined.

(** ** The run with export *)

Lemma formattable_hashable v : formattable v = true -> is_Some (key_of v).
Proof. destruct v; try done; by eexists. Qed.

Lemma results_after_export timestamp rows matches party_counts w out :
  results_after (export_results timestamp rows matches party_counts w out)
  = Some (Holds (results_json_of timestamp rows matches
                   (sorted_parties party_counts))).
Proof. unfold export_results, results_after. by destruct (py_append _ _). Qed.

(** X10: when the MP party of every recorded match can be printed (a
    string or a number), the run with the export flag raises nothing before
    the export: the counting loop returns a dict, the summary is printed
    (the notice "No matches discovered." exactly when the dict is empty),
    and [export_results] is called with the rows, the matches and the dict
    of the loop; the results file then holds their document. *)
Theorem printable_parties_reach_export `{Runtime} (timestamp : string) (w : world)
    (mp_dir pl_dir : gmap string file) :
  data_mp w = Some mp_dir ->
  data_pl w = Some pl_dir ->
  Forall (fun m => formattable (mi_mp_party m) = true)
         (all_matches (main_loop mp_dir pl_dir)) ->
  let st := main_loop mp_dir pl_dir in
  exists party_counts,
    count_matches (all_matches st) [] = Return party_counts
    /\ (party_counts = [] <-> all_matches st = [])
    /\ compare_mp_and_pl true timestamp w
       = export_results timestamp (all_rows st) (all_matches st) party_counts w
           (console st ++ [SummaryBanner]
            ++ match party_counts with
               | [] => [NoMatchesLine]
               | _ => [SummaryHeader; SummaryRule]
                      ++ ((fun pc => PartyLine pc.1 pc.2)
                            <$> sorted_parties party_counts)
               end
            ++ [SummaryEnd])
    /\ results_after (compare_mp_and_pl true timestamp w)
       = Some (Holds (results_json_of timestamp (all_rows st) (all_matches st)
                        (sorted_parties party_counts))).
Proof.
  intros Hmp Hpl Hfmt st. subst st.
  assert (Forall (fun m => is_Some (key_of (mi_mp_party m)))
            (all_matches (main_loop mp_dir pl_dir))) as Hkeys.
  { eapply Forall_impl; [exact Hfmt|]. intros m. apply formattable_hashable. }
  destruct (count_matches_spec _ [] Hkeys) as (d & Hd & _).
  pose proof (count_matches_total _ _ _ Hd) as [Hsum _].
  pose proof (count_matches_parties (fun p => formattable p = true) _ _ _ Hd Hfmt
                (Forall_nil_2 _)) as Hparties.
  exists d. split; [done|].
  assert (compare_mp_and_pl true timestamp w
          = export_results timestamp (all_rows (main_loop mp_dir pl_dir))
              (all_matches (main_loop mp_dir pl_dir)) d w
              (console (main_loop mp_dir pl_dir) ++ [SummaryBanner]
               ++ match d with
                  | [] => [NoMatchesLine]
                  | _ => [SummaryHeader; SummaryRule]
                         ++ ((fun pc => PartyLine pc.1 pc.2) <$> sorted_parties d)
                  end
               ++ [SummaryEnd])
          /\ (d = [] <-> all_matches (main_loop mp_dir pl_dir) = [])) as [Hrun Hempty].
  { rewrite /compare_mp_and_pl Hmp Hpl.
    destruct (all_matches (main_loop mp_dir pl_dir)) as [|m ms] eqn:Hms.
    - injection Hd as <-. by rewrite -!app_assoc.
    - rewrite Hd print_parties_all; [|by rewrite sorted_parties_perm].
      destruct d as [|pc d]; [simpl in Hsum; lia|].
      split; [|done]. by rewrite -!app_assoc. }
  split; [done|]. split; [done|].
  by rewrite Hrun results_after_export.
Qed.

(** The sample: one match, of party PARTY-A. *)
Lemma printable_parties_reach_export_witness :
  exists party_counts,
    count_matches (all_matches (main_loop (H := basic_runtime) sample_mp sample_pl)) []
    = Return party_counts
    /\ results_after (compare_mp_and_pl (H := basic_runtime) true "T" (sample_world None))
       = Some (Holds (results_json_of "T"
                        (all_rows (main_loop (H := basic_runtime) sample_mp sample_pl))
                        (all_matches (main_loop (H := basic_runtime) sample_mp sample_pl))
                        (sorted_parties party_counts))).
Proof.
  assert (Forall (fun m => formattable (mi_mp_party m) = true)
            (all_matches (main_loop (H := basic_runtime) sample_mp sample_pl)))
    as Hfmt by (vm_compute; by repeat constructor).
  destruct (printable_parties_reach_export (H := basic_runtime) "T"
              (sample_world None) sample_mp sample_pl eq_refl eq_refl Hfmt)
    as (d & Hd & _ & _ & Hresults).
  exists d. split; [exact Hd|exact Hresults].
Defined.

(** One export from a history that reads as the list [l]. *)
Lemma export_from_list timestamp rows matches counts w out l :
  read_history (history_before w) = JArr l ->
  let r := export_results timestamp rows matches counts w out in
  uncaught r = None
  /\ history_after r
     = Some (Holds (JArr (l ++ [snapshot_json timestamp rows (sorted_parties counts)]))).
Proof.
  intros Hl r. subst r. unfold export_results, history_after.
  cbv zeta. cbn [history_json]. rewrite history_before_default Hl. done.
Qed.

(** X11: exports accumulate.  Starting from a history that is absent,
    cannot be loaded or holds a list [l], two exports in a row raise
    nothing and leave the history [l] followed by the two snapshots, in the
    order of the calls; the results file holds the document of the second
    call only. *)
Theorem exports_accumulate (w : world) (l : list json)
    (timestamp1 timestamp2 : string) (rows1 rows2 : list row)
    (matches1 matches2 : list match_info) (counts1 counts2 : list (json * Z))
    (out1 out2 : list line) :
  read_history (history_before w) = JArr l ->
  let r1 := export_results timestamp1 rows1 matches1 counts1 w out1 in
  let r2 := export_results timestamp2 rows2 matches2 counts2 (final_world r1) out2 in
  uncaught r1 = None /\ uncaught r2 = None
  /\ history_after r2
     = Some (Holds (JArr (l ++ [snapshot_json timestamp1 rows1 (sorted_parties counts1);
                                snapshot_json timestamp2 rows2 (sorted_parties counts2)])))
  /\ results_after r2
     = Some (Holds (results_json_of timestamp2 rows2 matches2 (sorted_parties counts2))).
Proof.
  intros Hl r1 r2.
  destruct (export_from_list timestamp1 rows1 matches1 counts1 w out1 l Hl)
    as [Hnone1 Hhist1]. fold r1 in Hnone1, Hhist1.
  assert (read_history (history_before (final_world r1))
          = JArr (l ++ [snapshot_json timestamp1 rows1 (sorted_parties counts1)]))
    as Hl1.
  { unfold history_after in Hhist1. unfold history_before. by rewrite Hhist1. }
  destruct (export_from_list timestamp2 rows2 matches2 counts2 (final_world r1)
              out2 _ Hl1) as [Hnone2 Hhist2]. fold r2 in Hnone2, Hhist2.
  split; [done|]. split; [done|]. split.
  - by rewrite Hhist2 -app_assoc.
  - apply results_after_export.
Qed.

Lemma exports_accumulate_witness :
  let r1 := export_results "T1" [] [] [] (sample_world None) [] in
  let r2 := export_results "T2" [] [] [] (final_world r1) [] in
  history_after r2
  = Some (Holds (JArr [snapshot_json "T1" [] []; snapshot_json "T2" [] []])).
Proof.
  intros r1 r2.
  exact (proj1 (proj2 (proj2 (exports_accumulate (sample_world None) []
                                "T1" "T2" [] [] [] [] [] [] [] [] eq_refl)))).
Defined.

(** X12: the input directories are only read: whatever the flag, they are
    after the call what they were before.  When one of them is missing the
    call prints the one line "Error: data/mp or data/pl directory not
    found.", raises nothing and writes nothing, also with the export
    flag. *)
Theorem input_directories_are_only_read `{Runtime} (export_json : bool)
    (timestamp : string) (w : world) :
  let r := compare_mp_and_pl export_json timestamp w in
  data_mp (final_world r) = data_mp w
  /\ data_pl (final_world r) = data_pl w
  /\ (data_mp w = None \/ data_pl w = None ->
      final_world r = w /\ output r = [DirErrorLine] /\ uncaught r = None).
Proof.
  intros r. subst r. unfold compare_mp_and_pl.
  assert (forall rows ms d out,
            data_mp (final_world (export_results timestamp rows ms d w out)) = data_mp w
            /\ data_pl (final_world (export_results timestamp rows ms d w out))
               = data_pl w) as Hexport.
  { intros rows ms d out. unfold export_results. by destruct (py_append _ _). }
  destruct (data_mp w) as [mp_dir|] eqn:Hmp, (data_pl w) as [pl_dir|] eqn:Hpl;
    try (repeat split; done).
  assert (forall r : result,
            data_mp (final_world r) = Some mp_dir /\ data_pl (final_world r) = Some pl_dir ->
            data_mp (final_world r) = Some mp_dir
            /\ data_pl (final_world r) = Some pl_dir
            /\ (Some mp_dir = None \/ Some pl_dir = None ->
                final_world r = w /\ output r = [DirErrorLine] /\ uncaught r = None))
    as Hframe.
  { intros r [? ?]. do 2 (split; [done|]). by intros [|]. }
  repeat case_match; apply Hframe; simpl; try done;
    rewrite -?Hmp -?Hpl; apply Hexport.
Qed.

Lemma input_directories_are_only_read_witness :
  let w := {| data_mp := None; data_pl := Some sample_pl; docs_data := None |} in
  let r := compare_mp_and_pl (H := basic_runtime) true "T" w in
  final_world r = w /\ output r = [DirErrorLine] /\ uncaught r = None.
Proof.
  intros w.
  exact (proj2 (proj2 (input_directories_are_only_read (H := basic_runtime)
                         true "T" w)) (or_introl eq_refl)).
Defined.

(** The run with the export flag, when the MP party of every recorded
    match can be printed: it ends in the call of [export_results]. *)
Lemma run_with_export `{Runtime} (timestamp : string) (w : world)
    (mp_dir pl_dir : gmap string file) :
  data_mp w = Some mp_dir ->
  data_pl w = Some pl_dir ->
  Forall (fun m => formattable (mi_mp_party m) = true)
         (all_matches (main_loop mp_dir pl_dir)) ->
  exists party_counts out,
    count_matches (all_matches (main_loop mp_dir pl_dir)) [] = Return party_counts
    /\ compare_mp_and_pl true timestamp w
       = export_results timestamp (all_rows (main_loop mp_dir pl_dir))
           (all_matches (main_loop mp_dir pl_dir)) party_counts w out.
Proof.
  intros Hmp Hpl Hfmt.
  assert (Forall (fun m => is_Some (key_of (mi_mp_party m)))
            (all_matches (main_loop mp_dir pl_dir))) as Hkeys.
  { eapply Forall_impl; [exact Hfmt|]. intros m. apply formattable_hashable. }
  destruct (count_matches_spec _ [] Hkeys) as (d & Hd & _).
  pose proof (count_matches_total _ _ _ Hd) as [Hsum _].
  pose proof (count_matches_parties (fun p => formattable p = true) _ _ _ Hd Hfmt
                (Forall_nil_2 _)) as Hparties.
  exists d. rewrite /compare_mp_and_pl Hmp Hpl.
  destruct (all_matches (main_loop mp_dir pl_dir)) as [|m ms] eqn:Hms.
  - injection Hd as <-. by eexists.
  - rewrite Hd print_parties_all; [|by rewrite sorted_parties_perm].
    destruct d as [|pc d]; [simpl in Hsum; lia|]. by eexists.
Qed.

Lemma export_prints_its_line timestamp rows matches party_counts w out :
  ExportedLine ∈ output (export_results timestamp rows matches party_counts w out).
Proof.
  unfold export_results. destruct (py_append _ _); simpl.
  - rewrite !elem_of_app. left. right. by left.
  - rewrite !elem_of_app. right. by left.
Qed.

(** X14: the entry point prints its two lines first, then runs
    [compare_mp_and_pl] with the export flag set exactly when [--export] is
    one of the arguments, wherever it stands and whatever the other
    arguments are.  With the flag, a run over present directories whose
    matches have printable MP parties prints the export line and leaves the
    results file with the document of the rows and matches of the loop;
    without it, nothing is written. *)
Theorem main_reads_the_export_flag `{Runtime} (argv : list string)
    (timestamp : string) (w : world) :
  (exists lines,
     (main argv timestamp w).1.2 = TitleLine :: LogicLine :: lines)
  /\ ("--export" ∈ argv ->
      main argv timestamp w = main ["--export"] timestamp w
      /\ main argv timestamp w
         = (final_world (compare_mp_and_pl true timestamp w),
            TitleLine :: LogicLine
              :: (Printed <$> output (compare_mp_and_pl true timestamp w)),
            uncaught (compare_mp_and_pl true timestamp w))
      /\ forall mp_dir pl_dir,
           data_mp w = Some mp_dir ->
           data_pl w = Some pl_dir ->
           Forall (fun m => formattable (mi_mp_party m) = true)
                  (all_matches (main_loop mp_dir pl_dir)) ->
           exists party_counts,
             count_matches (all_matches (main_loop mp_dir pl_dir)) []
             = Return party_counts
             /\ docs_data (main argv timestamp w).1.1 ≫= results_json
                = Some (Holds (results_json_of timestamp
                                 (all_rows (main_loop mp_dir pl_dir))
                                 (all_matches (main_loop mp_dir pl_dir))
                                 (sorted_parties party_counts)))
             /\ Printed ExportedLine ∈ (main argv timestamp w).1.2)
  /\ ("--export" ∉ argv ->
      main argv timestamp w = main [] timestamp w
      /\ main argv timestamp w
         = (w,
            TitleLine :: LogicLine
              :: (Printed <$> output (compare_mp_and_pl false timestamp w)),
            uncaught (compare_mp_and_pl false timestamp w))
      /\ (main argv timestamp w).1.1 = w).
Proof.
  assert (final_world (compare_mp_and_pl false timestamp w) = w) as Hsame
    by (unfold compare_mp_and_pl; by repeat case_match).
  unfold main. split; [by eexists|]. split.
  - intros Hin. rewrite !bool_decide_true //; [|by left].
    split; [done|]. split; [done|].
    intros mp_dir pl_dir Hmp Hpl Hfmt.
    destruct (run_with_export timestamp w mp_dir pl_dir Hmp Hpl Hfmt)
      as (d & out & Hd & Hrun).
    exists d. split; [exact Hd|]. cbn [fst snd]. rewrite Hrun. split.
    + apply results_after_export.
    + do 2 right. apply list_elem_of_fmap_2, export_prints_its_line.
  - intros Hnin.
    rewrite (bool_decide_false _ Hnin)
            (bool_decide_false ("--export" ∈ []) (not_elem_of_nil _)).
    split; [done|]. cbn [fst snd]. by rewrite Hsame.
Qed.

(** The sample run with the flag after other arguments: the results file
    is written. *)
Lemma main_reads_the_export_flag_witness :
  let argv := ["mp_pl_comparer.py"; "-v"; "--export"] in
  main (H := basic_runtime) argv "T" (sample_world None)
  = main (H := basic_runtime) ["--export"] "T" (sample_world None)
  /\ exists party_counts,
       count_matches (all_matches (main_loop (H := basic_runtime) sample_mp sample_pl)) []
       = Return party_counts
       /\ docs_data (main (H := basic_runtime) argv "T" (sample_world None)).1.1
            ≫= results_json
          = Some (Holds (results_json_of "T"
                           (all_rows (main_loop (H := basic_runtime) sample_mp sample_pl))
                           (all_matches (main_loop (H := basic_runtime) sample_mp sample_pl))
                           (sorted_parties party_counts))).
Proof.
  intros argv.
  assert ("--export" ∈ argv) as Hin by (by do 2 right; left).
  destruct (proj1 (proj2 (main_reads_the_export_flag (H := basic_runtime)
                            argv "T" (sample_world None))) Hin)
    as (Hsame & _ & Hexport).
  split; [exact Hsame|].
  destruct (Hexport sample_mp sample_pl eq_refl eq_refl) as (d & Hd & Hresults & _).
  { vm_compute. repeat constructor. }
  exists d. split; [exact Hd|exact Hresults].
Defined.

(** ** Files that are skipped, and a scan that raises *)

Lemma prefix_refl p : String.prefix p p = true.
Proof. induction p as [|c p IH]; simpl; [done|]. by destruct (ascii_dec c c). Qed.

Lemma str_drop_all p : Str.drop (String.length p) p = "".
Proof. by induction p. Qed.

(** X15: a file that is skipped leaves no trace, not even a line on the
    console: a file missing from the PL directory, an MP object whose
    entries are missing or empty, a candidate code that does not start with
    the prefix, and a candidate code that is the prefix alone. *)
Theorem skipped_files_leave_no_trace `{Runtime} (mp_dir pl_dir : gmap string file)
    (filename : string) :
  pl_dir !! filename = None
  \/ (exists kvs,
        mp_dir !! filename = Some (Holds (JObj kvs))
        /\ truthy (default (JArr []) (assoc "entries" kvs)) = false)
  \/ (exists kvs tkvs rest code,
        mp_dir !! filename = Some (Holds (JObj kvs))
        /\ assoc "entries" kvs = Some (JArr (JObj tkvs :: rest))
        /\ default (JStr "") (assoc "candidateCode" tkvs) = JStr code
        /\ (Str.startswith (expected_prefix (area_code_of filename)) code = false
            \/ code = expected_prefix (area_code_of filename))) ->
  area_delta mp_dir pl_dir filename = no_change.
Proof.
  intros Hskip. unfold area_delta, loop_body.
  destruct (pl_dir !! filename) as [pl_file|] eqn:Hpl; [|done].
  assert (info_of (area_code_of filename) (open_in mp_dir filename) = Return None)
    as Hinfo; [|by rewrite try_block_unfold Hinfo].
  destruct Hskip as [?|[(kvs & Hmp & Hfalsy)
                       |(kvs & tkvs & rest & code & Hmp & Hentries & Hcode & Hno)]];
    [done| |]; rewrite /open_in Hmp /info_of /winning_info /mbind /M_bind /lift; cbn.
  - by rewrite Hfalsy.
  - rewrite Hentries. cbn. rewrite Hcode. cbn.
    destruct Hno as [->| ->]; [done|].
    by rewrite /Str.startswith prefix_refl str_drop_all.
Qed.

Lemma skipped_files_leave_no_trace_witness :
  area_delta (H := basic_runtime) bare_prefix_mp empty_pl "100.json" = no_change.
Proof.
  apply (skipped_files_leave_no_trace (H := basic_runtime)).
  right. right.
  exists [("entries", JArr [JObj [("candidateCode", JStr "CANDIDATE-MP-100");
                                  ("partyCode", JStr "PARTY-A")]])],
         [("candidateCode", JStr "CANDIDATE-MP-100"); ("partyCode", JStr "PARTY-A")],
         [], "CANDIDATE-MP-100".
  repeat split. by right.
Defined.

Section PartialScan.

Context `{Runtime}.

(** The scan over well-formed entries followed by an entry that is not an
    object: the matches before it are recorded, then the scan raises. *)
Lemma scan_pl_raises area_code mp_number mp_party good bad rest matches st :
  forallb entry_ok good = true ->
  type_of bad <> TDict ->
  let found := omap (match_of_entry area_code mp_number mp_party) good in
  scan_pl area_code mp_number mp_party (good ++ bad :: rest) matches st
  = (Raise (AttributeError (type_of bad) "get"), extend st (only_matches found.*1)).
Proof.
  intros Hgood Hbad found. subst found. revert matches st.
  induction good as [|pl_entry good IH]; intros matches st.
  { rewrite /= extend_no_change_r. by destruct bad. }
  simpl in Hgood. apply andb_true_iff in Hgood as [Hentry Hgood].
  destruct (entry_ok_code _ Hentry) as (kvs & c & -> & Hcode).
  pose proof (excluded_in_strs kvs c Hcode) as Hin.
  assert (match_of_entry area_code mp_number mp_party (JObj kvs)
          = if negb (excluded (JObj kvs)) && String.eqb (Str.last 2 c) mp_number
            then Some (match_of area_code mp_number mp_party kvs (JStr c),
                       text_of kvs mp_number)
            else None) as Hfound by by rewrite /match_of_entry Hcode.
  cbn [omap list_omap]. rewrite Hfound -app_comm_cons.
  destruct (excluded (JObj kvs)) eqn:Hex; cbn [negb andb].
  - rewrite (scan_pl_skip _ _ _ kvs c); [by apply IH|done|by rewrite Hin].
  - destruct (String.eqb_spec (Str.last 2 c) mp_number) as [Heq|Hne].
    + rewrite (scan_pl_match _ _ _ kvs c); [|done..].
      by rewrite IH //= append_match_extend extend_assoc.
    + rewrite (scan_pl_skip _ _ _ kvs c); [by apply IH|done|].
      rewrite Hin /=. by apply negb_true_iff, String.eqb_neq.
Qed.

End PartialScan.

(** X16: matches recorded before an exception stay.  With a well-formed MP
    file, when the first 7 PL entries are well-formed entries followed by
    one that is not an object, the iteration keeps in [all_matches] the
    matches found before the bad entry, appends no row, and prints the
    error of the bad entry: the summary then counts matches of an area
    that has no row. *)
Theorem matches_before_an_error_stay `{Runtime} (mp_dir pl_dir : gmap string file)
    (filename n : string) (kvs tkvs pkvs : list (string * json))
    (rest l good after : list json) (bad : json) :
  let area_code := area_code_of filename in
  let party := default (JStr "Unknown") (assoc "partyCode" tkvs) in
  let found := omap (match_of_entry area_code n party) good in
  mp_dir !! filename = Some (Holds (JObj kvs)) ->
  assoc "entries" kvs = Some (JArr (JObj tkvs :: rest)) ->
  assoc "candidateCode" tkvs = Some (JStr (expected_prefix area_code +:+ n)) ->
  n <> "" ->
  pl_dir !! filename = Some (Holds (JObj pkvs)) ->
  assoc "entries" pkvs = Some (JArr l) ->
  take 7 l = good ++ bad :: after ->
  forallb entry_ok good = true ->
  type_of bad <> TDict ->
  area_delta mp_dir pl_dir filename
  = {| all_matches := found.*1;
       all_rows := [];
       console := [ErrorLine area_code (AttributeError (type_of bad) "get")] |}.
Proof.
  intros area_code party found Hmp Hentries Hcode Hn Hpl Hl Htake Hgood Hbad.
  rewrite /area_delta /loop_body Hpl try_block_unfold /open_in Hmp /=.
  fold area_code.
  pose proof (info_of_Some area_code kvs tkvs rest
                (expected_prefix area_code +:+ n) Hentries) as Hinfo.
  rewrite Hcode /= /Str.startswith prefix_app str_drop_app in Hinfo.
  rewrite (Hinfo eq_refl eq_refl Hn) (entries_of_object pkvs l Hl) Htake.
  by rewrite scan_pl_raises // extend_no_change_l.
Qed.

(** A match at rank 1, then an entry that is a number. *)
Lemma matches_before_an_error_stay_witness :
  let pl_dir : gmap string file :=
    {[ "100.json" := pl_file_of [pl_entry_of "PARTY-0005" 1; JInt 7] ]} in
  area_delta (H := basic_runtime) sample_mp pl_dir "100.json"
  = {| all_matches :=
         [MatchInfo "100" "05" (JStr "PARTY-A") (JInt 1) (JStr "PARTY-0005")];
       all_rows := [];
       console := [ErrorLine "100" (AttributeError TInt "get")] |}.
Proof.
  intros pl_dir.
  refine (matches_before_an_error_stay (H := basic_runtime) sample_mp pl_dir
            "100.json" "05"
            [("entries", JArr [JObj [("candidateCode", JStr "CANDIDATE-MP-10005");
                                     ("partyCode", JStr "PARTY-A")]])]
            [("candidateCode", JStr "CANDIDATE-MP-10005");
             ("partyCode", JStr "PARTY-A")]
            [("entries", JArr [pl_entry_of "PARTY-0005" 1; JInt 7])] []
            [pl_entry_of "PARTY-0005" 1; JInt 7] [pl_entry_of "PARTY-0005" 1] []
            (JInt 7) _ _ _ _ _ _ _ _ _); try (vm_compute; reflexivity);
    discriminate.
Defined.

(** X17: with rows but no matched row the match rate is the float 0.0;
    it is the integer 0 only when there is no row at all. *)
Theorem match_rate_without_match (rows : list row) :
  Forall (fun r => row_matched r = false) rows ->
  match_rate (matched_areas rows) (total_areas rows)
  = match rows with
    | [] => JInt 0
    | _ => JFloat (S754_zero false)
    end.
Proof.
  intros Hrows.
  assert (matched_areas rows = 0) as ->.
  { unfold matched_areas. rewrite filter_keeps_none //.
    eapply Forall_impl; [exact Hrows|]. simpl. by intros r ->. }
  destruct rows as [|r rows]; [done|].
  unfold match_rate, total_areas. simpl length.
  assert ((0 <? Z.of_nat (S (length rows))) = true) as -> by (apply Z.ltb_lt; lia).
  unfold Float.true_div. by destruct (Z.of_nat (S (length rows))) eqn:Hz; try lia.
Qed.

Lemma match_rate_without_match_witness :
  match_rate (matched_areas [Row "101" "09" (JStr "PARTY-B") false "No Match"])
             (total_areas [Row "101" "09" (JStr "PARTY-B") false "No Match"])
  = JFloat (S754_zero false).
Proof.
  apply (match_rate_without_match
           [Row "101" "09" (JStr "PARTY-B") false "No Match"]).
  by repeat constructor.
Defined.
